(** * sociopatterns: the event model of the SocioPatterns/OpenBeacon
    analysis framework ([sociopatterns/__init__.py])

    The module defines three classes, [Event], [Sighting] and [Contact].
    They are plain slotted Python objects: a constructor that stores its
    arguments, a [get_hash] method and a [__repr__] method.

    The embedding keeps the program's shape:
    - a Python value is an integer, a string or a list of integers
      (the types the docstrings give to the fields), and every operation
      that Python checks at run time ([%d] on a non-number, iterating a
      non-iterable, reading an unset slot) raises in the model too;
    - an object is its class together with a finite map from slot names
      to values, and a method is a computation in a state-and-error
      monad over [self];
    - the string formatting operator [%] is an interpreter of the format
      string, so that [__repr__] is modelled with the very format
      strings of the source. *)

From Stdlib Require Import ZArith Lia Ascii.
From stdpp Require Import base gmap strings list.

Local Open Scope Z_scope.

(* ===================================================================== *)
(** ** Values, exceptions and results *)
(* ===================================================================== *)

(** Python values that occur in the module: integers (arbitrary
    precision), strings, and lists of integers.  Other kinds of values
    (floats, [None], arbitrary objects) are outside the model. *)
Inductive val : Type :=
| VInt (z : Z)
| VStr (s : string)
| VList (l : list Z).

(** The exceptions the modelled operations can raise. *)
Inductive exn : Type :=
| TypeError
| ValueError
| AttributeError.

(** Outcome of an evaluation: a value or a raised exception. *)
Inductive res (A : Type) : Type :=
| Ok (a : A)
| Raise (e : exn).

Arguments Ok {A} a.
Arguments Raise {A} e.

#[global] Instance val_eq_dec : EqDecision val.
Proof. solve_decision. Defined.

#[global] Instance exn_eq_dec : EqDecision exn.
Proof. solve_decision. Defined.

Definition res_bind {A B : Type} (r : res A) (k : A -> res B) : res B :=
  match r with
  | Ok a => k a
  | Raise e => Raise e
  end.

(* ===================================================================== *)
(** ** Classes and objects *)
(* ===================================================================== *)

(** The three classes of the module. *)
Inductive cls : Type :=
| Event
| Sighting
| Contact.

#[global] Instance cls_eq_dec : EqDecision cls.
Proof. solve_decision. Defined.

(** [class Sighting(Event)], [class Contact(Event)], [class Event(object)]:
    the method resolution order, [object] left out. *)
Definition mro (c : cls) : list cls :=
  match c with
  | Event => [Event]
  | Sighting => [Sighting; Event]
  | Contact => [Contact; Event]
  end.

(** The [__slots__] declaration of each class. *)
Definition own_slots (c : cls) : list string :=
  match c with
  | Event => ["t"; "ip"; "id"; "seq"]
  | Sighting => ["strength"; "flags"; "last_seen"; "boot_count"]
  | Contact => ["seen_id"; "seen_pwr"; "seen_cnt"; "flags"; "boot_count"]
  end.

(** Every class of the hierarchy declares [__slots__], so that an
    instance has no [__dict__]: its attributes are the slots of the
    classes on its resolution order, and nothing else. *)
Definition slots (c : cls) : list string :=
  concat (own_slots <$> mro c).

(** The data attributes of the classes: [protocol = 24] in [Sighting]
    and [protocol = 69] in [Contact].  Methods and the attributes every
    Python object has ([__class__], [__doc__], ...) are not values of
    the model. *)
Definition own_attr (c : cls) (name : string) : option val :=
  match c with
  | Event => None
  | Sighting => if decide (name = "protocol") then Some (VInt 24) else None
  | Contact => if decide (name = "protocol") then Some (VInt 69) else None
  end.

(** First definition found along a resolution order. *)
Fixpoint resolve {A : Type} (own : cls -> option A) (order : list cls)
  : option A :=
  match order with
  | [] => None
  | c :: rest =>
      match own c with
      | Some a => Some a
      | None => resolve own rest
      end
  end.

Definition class_attr (c : cls) (name : string) : option val :=
  resolve (fun k => own_attr k name) (mro c).

(** An instance: its class and the current contents of its slots.  A
    slot that was never assigned is absent from the map. *)
Record obj : Type := Obj {
  ob_type : cls;
  ob_slots : gmap string val
}.

(** [object.__new__(cls)]: a fresh instance, no slot assigned. *)
Definition new_obj (c : cls) : obj := Obj c ∅.

(* ===================================================================== *)
(** ** Methods: state and errors over [self] *)
(* ===================================================================== *)

Definition M (A : Type) : Type := obj -> res (A * obj).

Definition ret {A : Type} (a : A) : M A := fun self => Ok (a, self).

Definition bind {A B : Type} (m : M A) (k : A -> M B) : M B :=
  fun self =>
    match m self with
    | Ok (a, self') => k a self'
    | Raise e => Raise e
    end.

Definition lift {A : Type} (r : res A) : M A :=
  fun self =>
    match r with
    | Ok a => Ok (a, self)
    | Raise e => Raise e
    end.

Notation "x <- c ;; k" := (bind c (fun x => k))
  (at level 100, c at next level, right associativity).
Notation "c ;;; k" := (bind c (fun _ => k))
  (at level 100, right associativity).

(** [self.name] for a data attribute: the slot if it is set, else the
    class attribute, else [AttributeError].  (Names of methods and of
    interpreter-provided attributes are outside the model: statements
    are made about slot names and [protocol] only.) *)
Definition getattr (name : string) : M val :=
  fun self =>
    match ob_slots self !! name with
    | Some v => Ok (v, self)
    | None =>
        match class_attr (ob_type self) name with
        | Some v => Ok (v, self)
        | None => Raise AttributeError
        end
    end.

(** [self.name = v]: allowed on the declared slots only. *)
Definition setattr (name : string) (v : val) : M unit :=
  fun self =>
    if bool_decide (name ∈ slots (ob_type self))
    then Ok (tt, Obj (ob_type self) (<[name := v]> (ob_slots self)))
    else Raise AttributeError.

(** The value a call returns. *)
Definition result {A : Type} (r : res (A * obj)) : res A :=
  match r with
  | Ok (a, _) => Ok a
  | Raise e => Raise e
  end.

(** [cls(args)]: allocate, run [__init__], return the instance. *)
Definition construct (c : cls) (init : M unit) : res obj :=
  match init (new_obj c) with
  | Ok (_, self) => Ok self
  | Raise e => Raise e
  end.

(* ===================================================================== *)
(** ** Constructors *)
(* ===================================================================== *)

(** [Event.__init__(self, tstamp, ip, id, seq)] *)
Definition Event_init (tstamp ip id seq : val) : M unit :=
  setattr "t" tstamp ;;;
  setattr "ip" ip ;;;
  setattr "id" id ;;;
  setattr "seq" seq.

(** A keyword parameter: the caller's value, or the default.  A list
    is held by its contents: the default of [seen_id], [seen_pwr] and
    [seen_cnt] is the one list object made when the class is defined,
    which is empty as long as no client code has appended to it. *)
Definition kwarg (given : option val) (default : val) : val :=
  match given with
  | Some v => v
  | None => default
  end.

(** [Sighting.__init__(self, tstamp, ip, id, seq, strength, flags,
    last_seen=0, boot_count=0)] *)
Definition Sighting_init (tstamp ip id seq strength flags : val)
  (last_seen boot_count : option val) : M unit :=
  Event_init tstamp ip id seq ;;;
  setattr "strength" strength ;;;
  setattr "flags" flags ;;;
  setattr "last_seen" (kwarg last_seen (VInt 0)) ;;;
  setattr "boot_count" (kwarg boot_count (VInt 0)).

(** [Contact.__init__(self, tstamp, ip, id, seq, seen_id=[], seen_pwr=[],
    seen_cnt=[], flags=0, boot_count=0)] *)
Definition Contact_init (tstamp ip id seq : val)
  (seen_id seen_pwr seen_cnt flags boot_count : option val) : M unit :=
  Event_init tstamp ip id seq ;;;
  setattr "seen_id" (kwarg seen_id (VList [])) ;;;
  setattr "seen_pwr" (kwarg seen_pwr (VList [])) ;;;
  setattr "seen_cnt" (kwarg seen_cnt (VList [])) ;;;
  setattr "flags" (kwarg flags (VInt 0)) ;;;
  setattr "boot_count" (kwarg boot_count (VInt 0)).

Definition new_Sighting (tstamp ip id seq strength flags : val)
  (last_seen boot_count : option val) : res obj :=
  construct Sighting
    (Sighting_init tstamp ip id seq strength flags last_seen boot_count).

Definition new_Contact (tstamp ip id seq : val)
  (seen_id seen_pwr seen_cnt flags boot_count : option val) : res obj :=
  construct Contact
    (Contact_init tstamp ip id seq seen_id seen_pwr seen_cnt flags boot_count).

(* ===================================================================== *)
(** ** Integers as text *)
(* ===================================================================== *)

Definition chr (c : ascii) : string := String c EmptyString.

Fixpoint repeat_char (n : nat) (c : ascii) : string :=
  match n with
  | O => EmptyString
  | S k => String c (repeat_char k c)
  end.

Definition digit_alphabet : list ascii :=
  String.list_ascii_of_string "0123456789abcdef".

Definition digit_char (d : Z) : ascii :=
  nth (Z.to_nat d) digit_alphabet "0"%char.

(** The digits of a natural number, most significant first: the
    interpreter's loop [do { emit n % base; n /= base } while n]. The
    fuel is the bit length of [n], which no base above 1 exhausts. *)
Fixpoint digits_go (base : Z) (fuel : nat) (n : Z) (acc : list Z) : list Z :=
  match fuel with
  | O => acc
  | S f =>
      if n / base =? 0 then n mod base :: acc
      else digits_go base f (n / base) (n mod base :: acc)
  end.

Definition digits (base n : Z) : list Z :=
  digits_go base (S (Z.to_nat (Z.log2 n))) n [].

Fixpoint str_of_digits (ds : list Z) : string :=
  match ds with
  | [] => EmptyString
  | d :: rest => String (digit_char d) (str_of_digits rest)
  end.

(** [%d] and [%x] with an optional [0] flag and minimum width: the sign,
    then the digits of the absolute value; padding goes between sign and
    digits when it is made of zeros, before the sign when of spaces. *)
Definition format_int (base : Z) (zero : bool) (width : nat) (z : Z) : string :=
  let sign := if z <? 0 then chr "-" else EmptyString in
  let body := str_of_digits (digits base (Z.abs z)) in
  let pad := (width - (String.length sign + String.length body))%nat in
  if zero then sign +:+ repeat_char pad "0" +:+ body
  else repeat_char pad " " +:+ sign +:+ body.

(** [str(z)] *)
Definition dec (z : Z) : string := format_int 10 false 0 z.

(** [str(v)]; an integer inside a list prints as [str] prints it. *)
Definition py_str (v : val) : string :=
  match v with
  | VInt z => dec z
  | VStr s => s
  | VList l => "[" +:+ String.concat ", " (dec <$> l) +:+ "]"
  end.

(** [%s] with a minimum width: padded with spaces on the left. *)
Definition format_str (width : nat) (s : string) : string :=
  repeat_char (width - String.length s) " " +:+ s.

(* ===================================================================== *)
(** ** The formatting operator [fmt % (args...)] *)
(* ===================================================================== *)

(** Where the scan of the format string stands. *)
Inductive fstate : Type :=
| FText                            (* copying literal text *)
| FFlags (zero : bool)             (* after [%], reading flags *)
| FWidth (zero : bool) (w : nat)   (* reading the minimum width *)
| FConv (zero : bool) (w : nat).   (* after a length modifier *)

Definition is_length_modifier (c : ascii) : bool :=
  bool_decide (c = "l"%char) || bool_decide (c = "h"%char)
  || bool_decide (c = "L"%char).

(** One conversion applied to its argument. [%d], [%i], [%u] and [%x]
    require a number.  (The limit recent interpreters put on the length
    of an integer's decimal text, thousands of digits, is not
    modelled.) *)
Definition convert (c : ascii) (zero : bool) (w : nat) (v : val) : res string :=
  if bool_decide (c = "d"%char) || bool_decide (c = "i"%char)
     || bool_decide (c = "u"%char) then
    match v with
    | VInt z => Ok (format_int 10 zero w z)
    | _ => Raise TypeError
    end
  else if bool_decide (c = "x"%char) then
    match v with
    | VInt z => Ok (format_int 16 zero w z)
    | _ => Raise TypeError
    end
  else if bool_decide (c = "s"%char) then Ok (format_str w (py_str v))
  else Raise ValueError.

Definition prepend (s : string) (r : res string) : res string :=
  res_bind r (fun rest => Ok (s +:+ rest)).

(** The directives covered are [%[0][width][l|h|L](d|i|u|x|s)] and [%%],
    which is all the module's format strings use.  What the interpreter
    knows beyond that (other flags, precision, mapping keys, [*], other
    conversion types) is outside the model, which reports it as
    [ValueError] like an unsupported format character.  Too few
    arguments, or arguments left over at the end, are a [TypeError]; a
    format string that stops inside a directive is a [ValueError]. *)
Fixpoint format_loop (fmt : string) (st : fstate) (args : list val)
  : res string :=
  let conversion c zero w rest :=
    if bool_decide (c = "%"%char)
    then prepend (chr "%") (format_loop rest FText args)
    else
      match args with
      | [] => Raise TypeError
      | v :: args' =>
          res_bind (convert c zero w v)
            (fun s => prepend s (format_loop rest FText args'))
      end in
  match fmt with
  | EmptyString =>
      match st with
      | FText =>
          match args with
          | [] => Ok EmptyString
          | _ :: _ => Raise TypeError
          end
      | _ => Raise ValueError
      end
  | String c rest =>
      match st with
      | FText =>
          if bool_decide (c = "%"%char) then format_loop rest (FFlags false) args
          else prepend (chr c) (format_loop rest FText args)
      | FFlags zero =>
          if bool_decide (c = "0"%char) then format_loop rest (FFlags true) args
          else
            match Ascii.is_nat c with
            | Some d => format_loop rest (FWidth zero d) args
            | None =>
                if is_length_modifier c then format_loop rest (FConv zero O) args
                else conversion c zero O rest
            end
      | FWidth zero w =>
          match Ascii.is_nat c with
          | Some d => format_loop rest (FWidth zero (10 * w + d)%nat) args
          | None =>
              if is_length_modifier c then format_loop rest (FConv zero w) args
              else conversion c zero w rest
          end
      | FConv zero w => conversion c zero w rest
      end
  end.

Definition py_format (fmt : string) (args : list val) : res string :=
  format_loop fmt FText args.

(* ===================================================================== *)
(** ** Iteration and [zip] *)
(* ===================================================================== *)

(** [iter(v)]: lists and strings are iterable, integers are not. *)
Definition py_iter (v : val) : res (list val) :=
  match v with
  | VList l => Ok (VInt <$> l)
  | VStr s => Ok ((fun c => VStr (chr c)) <$> String.list_ascii_of_string s)
  | VInt _ => Raise TypeError
  end.

(** [zip] of three sequences stops at the end of the shortest. *)
Fixpoint zip3 (a b c : list val) : list (val * val * val) :=
  match a, b, c with
  | x :: a', y :: b', z :: c' => (x, y, z) :: zip3 a' b' c'
  | _, _, _ => []
  end.

Definition py_zip (a b c : val) : res (list (val * val * val)) :=
  res_bind (py_iter a) (fun la =>
  res_bind (py_iter b) (fun lb =>
  res_bind (py_iter c) (fun lc =>
  Ok (zip3 la lb lc)))).

(* ===================================================================== *)
(** ** [__repr__] *)
(* ===================================================================== *)

(** [Sighting.__repr__] *)
Definition Sighting_repr : M string :=
  t <- getattr "t" ;;
  ip <- getattr "ip" ;;
  id <- getattr "id" ;;
  seq <- getattr "seq" ;;
  strength <- getattr "strength" ;;
  flags <- getattr "flags" ;;
  last_seen <- getattr "last_seen" ;;
  boot_count <- getattr "boot_count" ;;
  lift (py_format "S %ld 0x%08x %d 0x%08x %d %d %s %s"
          [t; ip; id; seq; strength; flags; last_seen; boot_count]).

(** The body of the [for] loop of [Contact.__repr__], run over the
    zipped triples with the accumulator [clist]. *)
Fixpoint Contact_repr_loop (items : list (val * val * val)) (clist : string)
  : res string :=
  match items with
  | [] => Ok clist
  | (id2, pwr, count) :: rest =>
      res_bind (py_format " [%d(%d) #%d]" [id2; pwr; count])
        (fun s => Contact_repr_loop rest (clist +:+ s))
  end.

(** [Contact.__repr__] *)
Definition Contact_repr : M string :=
  seen_id <- getattr "seen_id" ;;
  seen_pwr <- getattr "seen_pwr" ;;
  seen_cnt <- getattr "seen_cnt" ;;
  items <- lift (py_zip seen_id seen_pwr seen_cnt) ;;
  clist <- lift (Contact_repr_loop items EmptyString) ;;
  t <- getattr "t" ;;
  ip <- getattr "ip" ;;
  id <- getattr "id" ;;
  boot_count <- getattr "boot_count" ;;
  seq <- getattr "seq" ;;
  flags <- getattr "flags" ;;
  lift (py_format "C %ld 0x%08x %d 0x%04x 0x%08x %d%s"
          [t; ip; id; boot_count; seq; flags; VStr clist]).

(** [cls.protocol] *)
Definition protocol (c : cls) : res val :=
  match class_attr c "protocol" with
  | Some v => Ok v
  | None => Raise AttributeError
  end.

(* ===================================================================== *)
(** ** [get_hash] *)
(* ===================================================================== *)

Section Hashing.

(** The built-in [hash] applied to a tuple with the given items. *)
Variable hash : list val -> res Z.

(** [Event.get_hash] *)
Definition Event_get_hash : M Z :=
  id <- getattr "id" ;;
  seq <- getattr "seq" ;;
  lift (hash [id; seq]).

(** [Sighting.get_hash] *)
Definition Sighting_get_hash : M Z :=
  id <- getattr "id" ;;
  boot_count <- getattr "boot_count" ;;
  seq <- getattr "seq" ;;
  lift (hash [id; boot_count; seq]).

(** Which classes define [get_hash] themselves: [Contact] does not. *)
Definition own_get_hash (c : cls) : option (M Z) :=
  match c with
  | Event => Some Event_get_hash
  | Sighting => Some Sighting_get_hash
  | Contact => None
  end.

(** [self.get_hash()]: the method found along the resolution order of
    the class of [self]. *)
Definition get_hash : M Z :=
  fun self =>
    match resolve own_get_hash (mro (ob_type self)) with
    | Some method => method self
    | None => Raise AttributeError
    end.

End Hashing.

(* ===================================================================== *)
(** ** Specification vocabulary *)
(* ===================================================================== *)

(** A number written with exactly [w] digits, most significant first. *)
Fixpoint fixed_digits (base : Z) (w : nat) (n : Z) : list Z :=
  match w with
  | O => []
  | S w' => fixed_digits base w' (n / base) ++ [n mod base]
  end.

(** A field of exactly [w] hexadecimal digits. *)
Definition hex_field (w : nat) (n : Z) : string :=
  str_of_digits (fixed_digits 16 w n).

(** The number a list of digits denotes. *)
Definition digits_value (base : Z) (ds : list Z) : Z :=
  foldl (fun acc d => acc * base + d) 0 ds.

Definition concat_strings (l : list string) : string :=
  foldr String.append EmptyString l.

(** One neighbor segment of the debug string of a Contact. *)
Definition segment (id2 pwr count : Z) : string :=
  " [" +:+ dec id2 +:+ "(" +:+ dec pwr +:+ ") #" +:+ dec count +:+ "]".

(** The entries of the neighbor table, as the three parallel lists give
    them. *)
Fixpoint neighbors (ids pwrs cnts : list Z) : list (Z * Z * Z) :=
  match ids, pwrs, cnts with
  | i :: ids', p :: pwrs', c :: cnts' => (i, p, c) :: neighbors ids' pwrs' cnts'
  | _, _, _ => []
  end.

Definition segments (ids pwrs cnts : list Z) : list string :=
  (fun e : Z * Z * Z => segment e.1.1 e.1.2 e.2) <$> neighbors ids pwrs cnts.

(** Occurrences of a character in a string. *)
Fixpoint count_char (c : ascii) (s : string) : nat :=
  match s with
  | EmptyString => O
  | String a rest => ((if bool_decide (a = c) then 1 else 0) + count_char c rest)%nat
  end.

(** A call left [self] as it was (or raised). *)
Definition unchanged {A : Type} (self : obj) (r : res (A * obj)) : Prop :=
  match r with
  | Ok (_, self') => self' = self
  | Raise _ => True
  end.

(** A method that never assigns to [self]. *)
Definition read_only {A : Type} (m : M A) : Prop :=
  forall self, unchanged self (m self).


(** The fields the deduplication key of each kind of event is said to
    be derived from. *)
Definition identity_fields (c : cls) : list string :=
  match c with
  | Sighting => ["id"; "boot_count"; "seq"]
  | _ => ["id"; "seq"]
  end.

(** A sample [hash] on tuples of integers, in the style of the
    interpreter's tuple hash on 64-bit words; unhashable items (lists)
    raise. It instantiates the statements on concrete events. *)
Definition wrap64 (z : Z) : Z := (z + 2 ^ 63) mod 2 ^ 64 - 2 ^ 63.

Definition item_hash (v : val) : res Z :=
  match v with
  | VInt z => Ok (if z =? -1 then -2 else wrap64 z)
  | VStr s => Ok (Z.of_nat (String.length s))
  | VList _ => Raise TypeError
  end.

Fixpoint tuple_hash_go (items : list val) (x mult : Z) : res Z :=
  match items with
  | [] => Ok (wrap64 (x + 97531))
  | v :: rest =>
      res_bind (item_hash v) (fun y =>
        tuple_hash_go rest (wrap64 (Z.lxor x y * mult))
          (wrap64 (mult + 82520 + 2 * Z.of_nat (length rest))))
  end.

Definition sample_hash (items : list val) : res Z :=
  tuple_hash_go items 0x345678 1000003.

(** A slot read as a method reads it. *)
Definition field (self : obj) (name : string) : res val :=
  match ob_slots self !! name with
  | Some v => Ok v
  | None => Raise AttributeError
  end.

(** The length of the list a slot holds. *)
Definition slot_length (self : obj) (name : string) : option nat :=
  match ob_slots self !! name with
  | Some (VList l) => Some (length l)
  | _ => None
  end.

(** The slots of a freshly constructed Sighting. *)
Definition Sighting_slots (t ip id seq strength flags last_seen boot_count : val)
  : gmap string val :=
  <["boot_count" := boot_count]>
    (<["last_seen" := last_seen]>
    (<["flags" := flags]>
    (<["strength" := strength]>
    (<["seq" := seq]>
    (<["id" := id]>
    (<["ip" := ip]>
    (<["t" := t]> ∅))))))).

(** The slots of a freshly constructed Contact. *)
Definition Contact_slots
  (t ip id seq seen_id seen_pwr seen_cnt flags boot_count : val)
  : gmap string val :=
  <["boot_count" := boot_count]>
    (<["flags" := flags]>
    (<["seen_cnt" := seen_cnt]>
    (<["seen_pwr" := seen_pwr]>
    (<["seen_id" := seen_id]>
    (<["seq" := seq]>
    (<["id" := id]>
    (<["ip" := ip]>
    (<["t" := t]> ∅)))))))).

(** The header of the debug string of a Contact, before the segments. *)
Definition Contact_header (t ip id boot_count seq flags : Z) : string :=
  "C " +:+ dec t +:+ " 0x" +:+ format_int 16 true 8 ip +:+ " " +:+ dec id
  +:+ " 0x" +:+ format_int 16 true 4 boot_count +:+ " 0x"
  +:+ format_int 16 true 8 seq +:+ " " +:+ dec flags.

(** Two Contact events as the constructor builds them: same [id] and
    [seq], different time, reader, neighbor table, flags and boot count. *)
Definition contact_a : obj :=
  Obj Contact
    (Contact_slots (VInt 1700000000) (VInt 0x0afe0001) (VInt 1105) (VInt 77)
       (VList [1200; 1201]) (VList [0; 2]) (VList [3; 1]) (VInt 0) (VInt 3)).

Definition contact_b : obj :=
  Obj Contact
    (Contact_slots (VInt 1700000002) (VInt 0x0afe0002) (VInt 1105) (VInt 77)
       (VList []) (VList []) (VList []) (VInt 2) (VInt 4)).

(** Two Sighting events as the constructor builds them: same [id],
    [boot_count] and [seq], different time and reader. *)
Definition sighting_a : obj :=
  Obj Sighting
    (Sighting_slots (VInt 1700000000) (VInt 0x0afe0001) (VInt 0x1234) (VInt 7)
       (VInt 2) (VInt 1) (VInt 1) (VInt 3)).

Definition sighting_b : obj :=
  Obj Sighting
    (Sighting_slots (VInt 1700000001) (VInt 0x0afe0002) (VInt 0x1234) (VInt 7)
       (VInt 2) (VInt 1) (VInt 1) (VInt 3)).

(** A Contact built from neighbor lists of five entries. *)
Definition contact_five : obj :=
  Obj Contact
    (Contact_slots (VInt 1700000000) (VInt 0x0afe0001) (VInt 1105) (VInt 77)
       (VList [1; 2; 3; 4; 5]) (VList [0; 1; 2; 3; 0]) (VList [1; 1; 1; 1; 1])
       (VInt 0) (VInt 0)).

(** A Sighting built with strength 7. *)
Definition sighting_seven : obj :=
  Obj Sighting
    (Sighting_slots (VInt 1700000000) (VInt 0x0afe0001) (VInt 0x1234) (VInt 7)
       (VInt 7) (VInt 1) (VInt 0) (VInt 0)).

(** Whether a value is an integer. *)
Definition is_int (v : val) : bool :=
  match v with
  | VInt _ => true
  | _ => false
  end.

(** Reading a printed integer back: the position of a character in the
    digit alphabet, the number a string of digits denotes, and a
    leading minus sign. *)
Fixpoint index_of (c : ascii) (l : list ascii) : nat :=
  match l with
  | [] => O
  | a :: rest => if bool_decide (a = c) then O else S (index_of c rest)
  end.

Definition digit_of_char (c : ascii) : Z :=
  Z.of_nat (index_of c digit_alphabet).

Fixpoint read_digits (base acc : Z) (s : string) : Z :=
  match s with
  | EmptyString => acc
  | String c rest => read_digits base (acc * base + digit_of_char c) rest
  end.

Definition read_int (base : Z) (s : string) : Z :=
  match s with
  | EmptyString => 0
  | String c rest =>
      if bool_decide (c = "-"%char) then - read_digits base 0 rest
      else read_digits base 0 s
  end.

(** A string that is empty or begins with the character [c]. *)
Definition empty_or_starts (c : ascii) (s : string) : Prop :=
  s = EmptyString \/ exists rest, s = String c rest.

(** An instance of class [Event] as its constructor builds it. *)
Definition new_Event (tstamp ip id seq : val) : res obj :=
  construct Event (Event_init tstamp ip id seq).

(** A Sighting like [sighting_a] after one more reboot of the tag. *)
Definition sighting_rebooted : obj :=
  Obj Sighting
    (Sighting_slots (VInt 1700000000) (VInt 0x0afe0001) (VInt 0x1234) (VInt 7)
       (VInt 2) (VInt 1) (VInt 1) (VInt 4)).

(** The built-in [hash] on a tuple, with what it depends on made
    explicit.  The interpreter fixes the hash of an integer and the way
    a tuple combines the hashes of its items; a process fixes, when it
    starts, the seed of the hash of strings.  Lists are unhashable. *)
Section Interpreter.

Variable seed : Type.
Variable int_hash : Z -> Z.
Variable str_hash : seed -> string -> Z.
Variable tuple_combine : list Z -> Z.

Definition builtin_item_hash (run : seed) (v : val) : res Z :=
  match v with
  | VInt z => Ok (int_hash z)
  | VStr s => Ok (str_hash run s)
  | VList _ => Raise TypeError
  end.

Fixpoint builtin_item_hashes (run : seed) (items : list val) : res (list Z) :=
  match items with
  | [] => Ok []
  | v :: rest =>
      res_bind (builtin_item_hash run v) (fun h =>
      res_bind (builtin_item_hashes run rest) (fun hs => Ok (h :: hs)))
  end.

Definition builtin_hash (run : seed) (items : list val) : res Z :=
  res_bind (builtin_item_hashes run items) (fun hs => Ok (tuple_combine hs)).

End Interpreter.









(* ===================================================================== *)
(** ** Strings *)
(* ===================================================================== *)

Lemma app_cons (a : ascii) (s t : string) :
  String a s +:+ t = String a (s +:+ t).
Proof. reflexivity. Qed.

Lemma app_empty_l (s : string) : EmptyString +:+ s = s.
Proof. reflexivity. Qed.

Lemma app_empty_r (s : string) : s +:+ EmptyString = s.
Proof.
  induction s as [|a s IH]; [reflexivity|].
  rewrite app_cons. by rewrite IH.
Qed.

Lemma app_assoc_str (s t u : string) : (s +:+ t) +:+ u = s +:+ (t +:+ u).
Proof.
  induction s as [|a s IH]; [reflexivity|].
  rewrite !app_cons. by rewrite IH.
Qed.

Lemma count_char_app (c : ascii) (s t : string) :
  count_char c (s +:+ t) = (count_char c s + count_char c t)%nat.
Proof.
  induction s as [|a s IH]; [reflexivity|].
  rewrite app_cons. simpl. rewrite IH. lia.
Qed.

Lemma concat_strings_cons (s : string) (l : list string) :
  concat_strings (s :: l) = s +:+ concat_strings l.
Proof. reflexivity. Qed.

Lemma str_of_digits_app (xs ys : list Z) :
  str_of_digits (xs ++ ys) = str_of_digits xs +:+ str_of_digits ys.
Proof.
  induction xs as [|x xs IH]; [reflexivity|].
  simpl. rewrite app_cons. by rewrite IH.
Qed.

Lemma length_str_of_digits (ds : list Z) :
  String.length (str_of_digits ds) = length ds.
Proof. induction ds as [|d ds IH]; simpl; [reflexivity | by rewrite IH]. Qed.

Lemma repeat_zero_digits (k : nat) :
  repeat_char k "0" = str_of_digits (replicate k 0).
Proof. induction k as [|k IH]; simpl; [reflexivity | by rewrite IH]. Qed.

(* ===================================================================== *)
(** ** Digits *)
(* ===================================================================== *)

Section Digits.

Variable base : Z.
Hypothesis base_ge_2 : 2 <= base.

Lemma fixed_digits_zero (w : nat) : fixed_digits base w 0 = replicate w 0.
Proof.
  induction w as [|w IH]; [reflexivity|].
  simpl fixed_digits. rewrite Z.div_0_l, Z.mod_0_l by lia.
  rewrite IH. symmetry. apply replicate_S_end.
Qed.

Lemma length_fixed_digits (w : nat) (n : Z) :
  length (fixed_digits base w n) = w.
Proof.
  revert n. induction w as [|w IH]; intros n; [reflexivity|].
  simpl. rewrite length_app, IH. simpl. lia.
Qed.

Lemma div_lt_pow (n : Z) (w : nat) :
  0 <= n < base ^ Z.of_nat (S w) -> 0 <= n / base < base ^ Z.of_nat w.
Proof.
  intros [Hn Hlt]. split; [apply Z.div_pos; lia|].
  apply Z.div_lt_upper_bound; [lia|].
  rewrite Nat2Z.inj_succ, Z.pow_succ_r in Hlt by lia. lia.
Qed.

Lemma div_lt_pow2 (n : Z) (f : nat) :
  0 <= n < 2 ^ Z.of_nat (S f) -> n / base < 2 ^ Z.of_nat f.
Proof.
  intros [Hn Hlt].
  rewrite Nat2Z.inj_succ, Z.pow_succ_r in Hlt by lia.
  apply Z.div_lt_upper_bound; [lia|].
  assert (0 < 2 ^ Z.of_nat f) by (apply Z.pow_pos_nonneg; lia).
  nia.
Qed.

(** With enough fuel the loop yields the digits that, padded with
    zeros to any sufficient width, are the fixed-width digits. *)
Lemma digits_go_fixed (fuel : nat) : forall (n : Z) (acc : list Z) (w : nat),
  0 <= n < 2 ^ Z.of_nat fuel ->
  (1 <= w)%nat ->
  n < base ^ Z.of_nat w ->
  exists ds, digits_go base fuel n acc = ds ++ acc
             /\ (length ds <= w)%nat
             /\ replicate (w - length ds) 0 ++ ds = fixed_digits base w n.
Proof.
  induction fuel as [|f IH]; intros n acc w Hn Hw Hlt.
  - exists []. simpl in Hn. assert (n = 0) by lia. subst n.
    repeat split; [simpl; lia|].
    rewrite app_nil_r, fixed_digits_zero. simpl. f_equal. lia.
  - destruct w as [|w]; [lia|].
    simpl digits_go. simpl fixed_digits.
    destruct (Z.eqb_spec (n / base) 0) as [Hq|Hq].
    + exists [n mod base]. repeat split; [simpl; lia|].
      rewrite Hq, fixed_digits_zero. simpl. by rewrite Nat.sub_0_r.
    + assert (Hdiv : 0 <= n / base < base ^ Z.of_nat w)
        by (apply div_lt_pow; lia).
      assert (Hw' : (1 <= w)%nat).
      { destruct w; [|lia]. simpl in Hdiv. lia. }
      destruct (IH (n / base) (n mod base :: acc) w) as (ds & Hgo & Hlen & Hpad);
        [split; [lia | apply div_lt_pow2; lia] | done | lia |].
      exists (ds ++ [n mod base]). rewrite Hgo, length_app. simpl.
      repeat split; [by rewrite <- app_assoc | lia |].
      rewrite <- Hpad, <- app_assoc.
      replace (S w - (length ds + 1))%nat with (w - length ds)%nat by lia.
      done.
Qed.

Lemma digits_fixed (n : Z) (w : nat) :
  0 <= n < base ^ Z.of_nat w ->
  (1 <= w)%nat ->
  (length (digits base n) <= w)%nat
  /\ replicate (w - length (digits base n)) 0 ++ digits base n
     = fixed_digits base w n.
Proof.
  intros [Hn Hlt] Hw. unfold digits.
  destruct (digits_go_fixed (S (Z.to_nat (Z.log2 n))) n [] w) as (ds & Hgo & Hlen & Hpad);
    [|done|done|].
  - split; [done|].
    rewrite Nat2Z.inj_succ, Z2Nat.id by apply Z.log2_nonneg.
    destruct (Z.eq_dec n 0) as [->|Hne]; [done|].
    apply Z.log2_spec. lia.
  - rewrite Hgo, app_nil_r. done.
Qed.

(** A number below [base ^ w], printed with the [0] flag and minimum
    width [w], fills exactly the [w] digits of the field. *)
Lemma format_int_fixed (n : Z) (w : nat) :
  0 <= n < base ^ Z.of_nat w ->
  (1 <= w)%nat ->
  format_int base true w n = str_of_digits (fixed_digits base w n).
Proof.
  intros Hn Hw. destruct (digits_fixed n w Hn Hw) as [Hlen Hpad].
  unfold format_int.
  destruct (Z.ltb_spec n 0) as [?|_]; [lia|].
  rewrite Z.abs_eq by lia.
  rewrite app_empty_l, length_str_of_digits. simpl String.length.
  rewrite Nat.add_0_l, repeat_zero_digits, <- str_of_digits_app.
  by rewrite Hpad.
Qed.

End Digits.

Lemma hex_field_length (w : nat) (n : Z) : String.length (hex_field w n) = w.
Proof.
  unfold hex_field. rewrite length_str_of_digits.
  apply length_fixed_digits.
Qed.

Lemma format_hex_field (w : nat) (n : Z) :
  0 <= n < 16 ^ Z.of_nat w ->
  (1 <= w)%nat ->
  format_int 16 true w n = hex_field w n.
Proof. intros Hn Hw. apply format_int_fixed; [lia | done | done]. Qed.

(* ===================================================================== *)
(** ** Objects and methods *)
(* ===================================================================== *)

Lemma read_only_ret {A : Type} (a : A) : read_only (ret a).
Proof. by intros self. Qed.

Lemma read_only_lift {A : Type} (r : res A) : read_only (lift r).
Proof. intros self. unfold lift. by destruct r. Qed.

Lemma read_only_getattr (name : string) : read_only (getattr name).
Proof.
  intros self. unfold getattr.
  destruct (ob_slots self !! name); [done|].
  by destruct (class_attr (ob_type self) name).
Qed.

Lemma read_only_bind {A B : Type} (m : M A) (k : A -> M B) :
  read_only m -> (forall a, read_only (k a)) -> read_only (bind m k).
Proof.
  intros Hm Hk self. unfold bind.
  specialize (Hm self). destruct (m self) as [[a self']|e]; [|done].
  simpl in Hm. subst self'. apply Hk.
Qed.

Create HintDb readonly.
#[local] Hint Resolve read_only_ret read_only_lift read_only_getattr : readonly.
#[local] Hint Extern 2 (read_only (bind _ _)) =>
  apply read_only_bind; [|intros ?] : readonly.







(** The constructors never raise: they assign their arguments, and the
    defaults of the keyword parameters left out, to the slots. *)
Lemma new_Sighting_ok (t ip id seq strength flags : val)
  (last_seen boot_count : option val) :
  new_Sighting t ip id seq strength flags last_seen boot_count
  = Ok (Obj Sighting
          (Sighting_slots t ip id seq strength flags
             (kwarg last_seen (VInt 0)) (kwarg boot_count (VInt 0)))).
Proof. reflexivity. Qed.

Lemma new_Contact_ok (t ip id seq : val)
  (seen_id seen_pwr seen_cnt flags boot_count : option val) :
  new_Contact t ip id seq seen_id seen_pwr seen_cnt flags boot_count
  = Ok (Obj Contact
          (Contact_slots t ip id seq
             (kwarg seen_id (VList [])) (kwarg seen_pwr (VList []))
             (kwarg seen_cnt (VList [])) (kwarg flags (VInt 0))
             (kwarg boot_count (VInt 0)))).
Proof. reflexivity. Qed.

Lemma Sighting_slots_lookup (t ip id seq strength flags last_seen boot_count : val) :
  let m := Sighting_slots t ip id seq strength flags last_seen boot_count in
  m !! "t" = Some t /\ m !! "ip" = Some ip /\ m !! "id" = Some id
  /\ m !! "seq" = Some seq /\ m !! "strength" = Some strength
  /\ m !! "flags" = Some flags /\ m !! "last_seen" = Some last_seen
  /\ m !! "boot_count" = Some boot_count.
Proof. unfold Sighting_slots. repeat split; by simplify_map_eq. Qed.

Lemma Contact_slots_lookup
  (t ip id seq seen_id seen_pwr seen_cnt flags boot_count : val) :
  let m := Contact_slots t ip id seq seen_id seen_pwr seen_cnt flags boot_count in
  m !! "t" = Some t /\ m !! "ip" = Some ip /\ m !! "id" = Some id
  /\ m !! "seq" = Some seq /\ m !! "seen_id" = Some seen_id
  /\ m !! "seen_pwr" = Some seen_pwr /\ m !! "seen_cnt" = Some seen_cnt
  /\ m !! "flags" = Some flags /\ m !! "boot_count" = Some boot_count.
Proof. unfold Contact_slots. repeat split; by simplify_map_eq. Qed.



(* ===================================================================== *)
(** ** The format strings of the module *)
(* ===================================================================== *)

Ltac run_format :=
  cbv -[format_int String.append py_str Nat.sub String.length repeat_char];
  rewrite ?app_empty_r; reflexivity.

Lemma Sighting_format (t ip id seq strength flags : Z) (last_seen boot_count : val) :
  py_format "S %ld 0x%08x %d 0x%08x %d %d %s %s"
    [VInt t; VInt ip; VInt id; VInt seq; VInt strength; VInt flags;
     last_seen; boot_count]
  = Ok ("S " +:+ dec t +:+ " 0x" +:+ format_int 16 true 8 ip +:+ " "
        +:+ dec id +:+ " 0x" +:+ format_int 16 true 8 seq +:+ " "
        +:+ dec strength +:+ " " +:+ dec flags +:+ " " +:+ py_str last_seen
        +:+ " " +:+ py_str boot_count).
Proof. run_format. Qed.

Lemma Contact_format (t ip id boot_count seq flags : Z) (clist : string) :
  py_format "C %ld 0x%08x %d 0x%04x 0x%08x %d%s"
    [VInt t; VInt ip; VInt id; VInt boot_count; VInt seq; VInt flags;
     VStr clist]
  = Ok ("C " +:+ dec t +:+ " 0x" +:+ format_int 16 true 8 ip +:+ " "
        +:+ dec id +:+ " 0x" +:+ format_int 16 true 4 boot_count +:+ " 0x"
        +:+ format_int 16 true 8 seq +:+ " " +:+ dec flags +:+ clist).
Proof. run_format. Qed.

Lemma segment_format (id2 pwr count : Z) :
  py_format " [%d(%d) #%d]" [VInt id2; VInt pwr; VInt count]
  = Ok (segment id2 pwr count).
Proof. unfold segment. run_format. Qed.

(** [zip] of three lists of integers pairs them up entry by entry. *)
Lemma zip3_ints (ids pwrs cnts : list Z) :
  zip3 (VInt <$> ids) (VInt <$> pwrs) (VInt <$> cnts)
  = (fun e : Z * Z * Z => (VInt e.1.1, VInt e.1.2, VInt e.2))
      <$> neighbors ids pwrs cnts.
Proof.
  revert pwrs cnts. induction ids as [|i ids IH]; intros pwrs cnts; [done|].
  destruct pwrs as [|p pwrs]; [done|].
  destruct cnts as [|c cnts]; [done|].
  simpl. by rewrite IH.
Qed.

Lemma length_neighbors (ids pwrs cnts : list Z) :
  length (neighbors ids pwrs cnts)
  = (length ids `min` (length pwrs `min` length cnts))%nat.
Proof.
  revert pwrs cnts. induction ids as [|i ids IH]; intros pwrs cnts; [done|].
  destruct pwrs as [|p pwrs]; [done|].
  destruct cnts as [|c cnts]; [simpl; lia|].
  simpl. by rewrite IH.
Qed.

Lemma Contact_repr_loop_cons (id2 pwr count : val)
  (rest : list (val * val * val)) (clist : string) :
  Contact_repr_loop ((id2, pwr, count) :: rest) clist
  = res_bind (py_format " [%d(%d) #%d]" [id2; pwr; count])
      (fun s => Contact_repr_loop rest (clist +:+ s)).
Proof. reflexivity. Qed.

(** The loop appends one segment per zipped triple, in order. *)
Lemma Contact_repr_loop_ints (es : list (Z * Z * Z)) (clist : string) :
  Contact_repr_loop
    ((fun e : Z * Z * Z => (VInt e.1.1, VInt e.1.2, VInt e.2)) <$> es) clist
  = Ok (clist +:+ concat_strings
          ((fun e : Z * Z * Z => segment e.1.1 e.1.2 e.2) <$> es)).
Proof.
  revert clist. induction es as [|[[i p] c] es IH]; intros clist.
  - simpl. by rewrite app_empty_r.
  - rewrite !fmap_cons, Contact_repr_loop_cons, segment_format.
    simpl res_bind. rewrite IH. simpl concat_strings.
    by rewrite app_assoc_str.
Qed.

(** [Contact.__repr__] on an object whose slots hold integers and lists
    of integers. *)
Lemma Contact_repr_ints (self : obj) (t ip id boot_count seq flags : Z)
  (seen_id seen_pwr seen_cnt : list Z) :
  ob_slots self !! "t" = Some (VInt t) ->
  ob_slots self !! "ip" = Some (VInt ip) ->
  ob_slots self !! "id" = Some (VInt id) ->
  ob_slots self !! "seq" = Some (VInt seq) ->
  ob_slots self !! "seen_id" = Some (VList seen_id) ->
  ob_slots self !! "seen_pwr" = Some (VList seen_pwr) ->
  ob_slots self !! "seen_cnt" = Some (VList seen_cnt) ->
  ob_slots self !! "flags" = Some (VInt flags) ->
  ob_slots self !! "boot_count" = Some (VInt boot_count) ->
  Contact_repr self
  = Ok (Contact_header t ip id boot_count seq flags
        +:+ concat_strings (segments seen_id seen_pwr seen_cnt), self).
Proof.
  intros Ht Hip Hid Hseq Hsid Hpwr Hcnt Hfl Hbc.
  unfold Contact_repr, bind, getattr.
  rewrite Hsid, Hpwr, Hcnt. simpl py_zip. simpl lift at 1.
  rewrite zip3_ints, Contact_repr_loop_ints. simpl lift at 1.
  cbv beta iota. rewrite Ht. cbv beta iota. rewrite Hip. cbv beta iota.
  rewrite Hid. cbv beta iota. rewrite Hbc. cbv beta iota.
  rewrite Hseq. cbv beta iota. rewrite Hfl. cbv beta iota.
  rewrite Contact_format. unfold lift, Contact_header, segments.
  rewrite !app_assoc_str. reflexivity.
Qed.

(** [Sighting.__repr__] on an object whose slots hold integers. *)
Lemma Sighting_repr_ints (self : obj)
  (t ip id seq strength flags last_seen boot_count : Z) :
  ob_slots self !! "t" = Some (VInt t) ->
  ob_slots self !! "ip" = Some (VInt ip) ->
  ob_slots self !! "id" = Some (VInt id) ->
  ob_slots self !! "seq" = Some (VInt seq) ->
  ob_slots self !! "strength" = Some (VInt strength) ->
  ob_slots self !! "flags" = Some (VInt flags) ->
  ob_slots self !! "last_seen" = Some (VInt last_seen) ->
  ob_slots self !! "boot_count" = Some (VInt boot_count) ->
  Sighting_repr self
  = Ok ("S " +:+ dec t +:+ " 0x" +:+ format_int 16 true 8 ip +:+ " "
        +:+ dec id +:+ " 0x" +:+ format_int 16 true 8 seq +:+ " "
        +:+ dec strength +:+ " " +:+ dec flags +:+ " " +:+ dec last_seen
        +:+ " " +:+ dec boot_count, self).
Proof.
  intros Ht Hip Hid Hseq Hst Hfl Hls Hbc.
  unfold Sighting_repr, bind, getattr.
  rewrite Ht, Hip, Hid, Hseq, Hst, Hfl, Hls, Hbc, Sighting_format.
  reflexivity.
Qed.

(* ===================================================================== *)
(** ** Counting brackets *)
(* ===================================================================== *)

Lemma digit_char_not_bracket (d : Z) : digit_char d <> "["%char.
Proof.
  unfold digit_char. generalize (Z.to_nat d). intros n.
  do 17 (destruct n as [|n]; [discriminate|]). simpl. discriminate.
Qed.

Lemma count_bracket_digits (ds : list Z) : count_char "[" (str_of_digits ds) = O.
Proof.
  induction ds as [|d ds IH]; [reflexivity|].
  simpl. rewrite IH. case_bool_decide as H; [|done].
  by apply digit_char_not_bracket in H.
Qed.

Lemma count_bracket_repeat (k : nat) (c : ascii) :
  c <> "["%char -> count_char "[" (repeat_char k c) = O.
Proof.
  intros Hc. induction k as [|k IH]; [reflexivity|].
  simpl. rewrite IH. by case_bool_decide.
Qed.

Lemma count_bracket_format_int (base : Z) (zero : bool) (w : nat) (z : Z) :
  count_char "[" (format_int base zero w z) = O.
Proof.
  unfold format_int.
  destruct zero; rewrite !count_char_app, count_bracket_digits,
    count_bracket_repeat by discriminate; by destruct (z <? 0).
Qed.

Lemma count_bracket_header (t ip id boot_count seq flags : Z) :
  count_char "[" (Contact_header t ip id boot_count seq flags) = O.
Proof.
  unfold Contact_header, dec.
  rewrite !count_char_app, !count_bracket_format_int. reflexivity.
Qed.

Lemma count_bracket_segment (id2 pwr count : Z) :
  count_char "[" (segment id2 pwr count) = 1%nat.
Proof.
  unfold segment, dec.
  rewrite !count_char_app, !count_bracket_format_int. reflexivity.
Qed.

Lemma count_bracket_segments (es : list (Z * Z * Z)) :
  count_char "["
    (concat_strings ((fun e : Z * Z * Z => segment e.1.1 e.1.2 e.2) <$> es))
  = length es.
Proof.
  induction es as [|e es IH]; [reflexivity|].
  rewrite fmap_cons, concat_strings_cons.
  rewrite count_char_app, count_bracket_segment, IH. done.
Qed.

(* ===================================================================== *)
(** ** The digits denote the number *)
(* ===================================================================== *)

Section DigitsValue.

Variable base : Z.
Hypothesis base_ge_2 : 2 <= base.

Lemma digits_value_snoc (ds : list Z) (d : Z) :
  digits_value base (ds ++ [d]) = digits_value base ds * base + d.
Proof. unfold digits_value. by rewrite foldl_app. Qed.

Lemma digits_value_zeros (k : nat) (ds : list Z) :
  digits_value base (replicate k 0 ++ ds) = digits_value base ds.
Proof. induction k as [|k IH]; [done|]. exact IH. Qed.

Lemma digits_value_fixed (w : nat) : forall n : Z,
  0 <= n -> digits_value base (fixed_digits base w n) = n mod base ^ Z.of_nat w.
Proof.
  induction w as [|w IH]; intros n Hn.
  - simpl. by rewrite Z.mod_1_r.
  - simpl fixed_digits. rewrite digits_value_snoc, IH by (apply Z.div_pos; lia).
    rewrite Nat2Z.inj_succ, Z.pow_succ_r by lia.
    rewrite Z.rem_mul_r by (try apply Z.pow_nonzero; lia). lia.
Qed.

(** [digits] is the positional notation of its argument. *)
Lemma digits_value_digits (n : Z) :
  0 <= n -> digits_value base (digits base n) = n.
Proof.
  intros Hn.
  set (w := S (Z.to_nat (Z.log2 n))).
  assert (Hlt : n < base ^ Z.of_nat w).
  { apply Z.lt_le_trans with (2 ^ Z.of_nat w).
    - unfold w. rewrite Nat2Z.inj_succ, Z2Nat.id by apply Z.log2_nonneg.
      destruct (Z.eq_dec n 0) as [->|Hne]; [done|].
      apply Z.log2_spec. lia.
    - apply Z.pow_le_mono_l. lia. }
  destruct (digits_fixed base base_ge_2 n w) as [_ Hpad]; [lia | unfold w; lia |].
  rewrite <- (digits_value_zeros (w - length (digits base n))), Hpad.
  rewrite digits_value_fixed by done.
  apply Z.mod_small. lia.
Qed.

End DigitsValue.

(** The decimal text of a natural number reads back as the number. *)
Lemma dec_digits_value (n : Z) :
  0 <= n ->
  dec n = str_of_digits (digits 10 n) /\ digits_value 10 (digits 10 n) = n.
Proof.
  intros Hn. split; [|apply digits_value_digits; lia].
  unfold dec, format_int.
  destruct (Z.ltb_spec n 0) as [?|_]; [lia|].
  by rewrite Z.abs_eq by lia.
Qed.

(* ===================================================================== *)
(** ** Deduplication keys *)
(* ===================================================================== *)

Lemma class_attr_field (c : cls) (name : string) :
  name <> "protocol" -> class_attr c name = None.
Proof.
  intros Hne. unfold class_attr.
  destruct c; simpl; by repeat case_decide.
Qed.

Lemma getattr_field (self : obj) (name : string) :
  name <> "protocol" -> getattr name self = lift (field self name) self.
Proof.
  intros Hne. unfold getattr, field, lift.
  destruct (ob_slots self !! name); [done|].
  by rewrite class_attr_field.
Qed.

Ltac read_field self name :=
  rewrite (getattr_field self name) by done; unfold lift;
  destruct (field self name); [cbv beta iota | done].

Lemma Event_get_hash_result hash (self : obj) :
  result (Event_get_hash hash self)
  = res_bind (field self "id") (fun id =>
    res_bind (field self "seq") (fun seq => hash [id; seq])).
Proof.
  unfold Event_get_hash, bind.
  read_field self "id". read_field self "seq".
  simpl. by destruct (hash _).
Qed.

Lemma Sighting_get_hash_result hash (self : obj) :
  result (Sighting_get_hash hash self)
  = res_bind (field self "id") (fun id =>
    res_bind (field self "boot_count") (fun boot_count =>
    res_bind (field self "seq") (fun seq => hash [id; boot_count; seq]))).
Proof.
  unfold Sighting_get_hash, bind.
  read_field self "id". read_field self "boot_count". read_field self "seq".
  simpl. by destruct (hash _).
Qed.

Lemma get_hash_Contact hash (self : obj) :
  ob_type self = Contact -> get_hash hash self = Event_get_hash hash self.
Proof. intros H. unfold get_hash. by rewrite H. Qed.

Lemma get_hash_Sighting hash (self : obj) :
  ob_type self = Sighting -> get_hash hash self = Sighting_get_hash hash self.
Proof. intros H. unfold get_hash. by rewrite H. Qed.

Lemma get_hash_Event hash (self : obj) :
  ob_type self = Event -> get_hash hash self = Event_get_hash hash self.
Proof. intros H. unfold get_hash. by rewrite H. Qed.

Lemma contact_a_constructed :
  new_Contact (VInt 1700000000) (VInt 0x0afe0001) (VInt 1105) (VInt 77)
    (Some (VList [1200; 1201])) (Some (VList [0; 2])) (Some (VList [3; 1]))
    None (Some (VInt 3))
  = Ok contact_a.
Proof. reflexivity. Qed.

Lemma contact_b_constructed :
  new_Contact (VInt 1700000002) (VInt 0x0afe0002) (VInt 1105) (VInt 77)
    None None None (Some (VInt 2)) (Some (VInt 4))
  = Ok contact_b.
Proof. reflexivity. Qed.

Lemma sighting_a_constructed :
  new_Sighting (VInt 1700000000) (VInt 0x0afe0001) (VInt 0x1234) (VInt 7)
    (VInt 2) (VInt 1) (Some (VInt 1)) (Some (VInt 3))
  = Ok sighting_a.
Proof. reflexivity. Qed.

Lemma sighting_b_constructed :
  new_Sighting (VInt 1700000001) (VInt 0x0afe0002) (VInt 0x1234) (VInt 7)
    (VInt 2) (VInt 1) (Some (VInt 1)) (Some (VInt 3))
  = Ok sighting_b.
Proof. reflexivity. Qed.


(** C1. Two Contact events with equal tag id and equal sequence number
    have equal deduplication keys, whatever their boot counts,
    timestamps and reader addresses: [Contact] inherits
    [Event.get_hash], whose key is the hash of the pair [(id, seq)] and
    reads no other field. *)
Theorem Contact_key_id_seq (hash : list val -> res Z) (c1 c2 : obj) :
  ob_type c1 = Contact ->
  ob_type c2 = Contact ->
  ob_slots c1 !! "id" = ob_slots c2 !! "id" ->
  ob_slots c1 !! "seq" = ob_slots c2 !! "seq" ->
  result (get_hash hash c1) = result (get_hash hash c2)
  /\ get_hash hash c1 = Event_get_hash hash c1
  /\ result (get_hash hash c1)
     = res_bind (field c1 "id") (fun id =>
       res_bind (field c1 "seq") (fun seq => hash [id; seq])).
Proof.
  intros T1 T2 Hid Hseq.
  rewrite (get_hash_Contact hash c1 T1), (get_hash_Contact hash c2 T2).
  rewrite !Event_get_hash_result. unfold field.
  rewrite Hid, Hseq. done.
Qed.

Lemma Contact_key_id_seq_witness :
  (ob_type contact_a = Contact /\ ob_type contact_b = Contact
   /\ ob_slots contact_a !! "id" = ob_slots contact_b !! "id"
   /\ ob_slots contact_a !! "seq" = ob_slots contact_b !! "seq")
  /\ ob_slots contact_a !! "boot_count" <> ob_slots contact_b !! "boot_count"
  /\ result (get_hash sample_hash contact_a)
     = result (get_hash sample_hash contact_b).
Proof.
  split; [repeat split; reflexivity|].
  split; [vm_compute; discriminate|].
  apply (Contact_key_id_seq sample_hash contact_a contact_b); reflexivity.
Defined.

(** C2. Two Sighting events with equal tag id, equal boot count and
    equal sequence number have equal deduplication keys, even when
    reader address and timestamp differ: [Sighting.get_hash] hashes the
    triple [(id, boot_count, seq)] and reads no other field. *)
Theorem Sighting_key_id_boot_seq (hash : list val -> res Z) (s1 s2 : obj) :
  ob_type s1 = Sighting ->
  ob_type s2 = Sighting ->
  ob_slots s1 !! "id" = ob_slots s2 !! "id" ->
  ob_slots s1 !! "boot_count" = ob_slots s2 !! "boot_count" ->
  ob_slots s1 !! "seq" = ob_slots s2 !! "seq" ->
  result (get_hash hash s1) = result (get_hash hash s2)
  /\ get_hash hash s1 = Sighting_get_hash hash s1
  /\ result (get_hash hash s1)
     = res_bind (field s1 "id") (fun id =>
       res_bind (field s1 "boot_count") (fun boot_count =>
       res_bind (field s1 "seq") (fun seq => hash [id; boot_count; seq]))).
Proof.
  intros T1 T2 Hid Hbc Hseq.
  rewrite (get_hash_Sighting hash s1 T1), (get_hash_Sighting hash s2 T2).
  rewrite !Sighting_get_hash_result. unfold field.
  rewrite Hid, Hbc, Hseq. done.
Qed.

Lemma Sighting_key_id_boot_seq_witness :
  (ob_type sighting_a = Sighting /\ ob_type sighting_b = Sighting
   /\ ob_slots sighting_a !! "id" = ob_slots sighting_b !! "id"
   /\ ob_slots sighting_a !! "boot_count" = ob_slots sighting_b !! "boot_count"
   /\ ob_slots sighting_a !! "seq" = ob_slots sighting_b !! "seq")
  /\ ob_slots sighting_a !! "t" <> ob_slots sighting_b !! "t"
  /\ ob_slots sighting_a !! "ip" <> ob_slots sighting_b !! "ip"
  /\ result (get_hash sample_hash sighting_a)
     = result (get_hash sample_hash sighting_b).
Proof.
  split; [repeat split; reflexivity|].
  split; [vm_compute; discriminate|].
  split; [vm_compute; discriminate|].
  apply (Sighting_key_id_boot_seq sample_hash sighting_a sighting_b);
    reflexivity.
Defined.




(** With a string as tag id the key is built from the seeded hash of
    that string. *)
Lemma Contact_key_string_id (seed : Type) (int_hash : Z -> Z)
  (str_hash : seed -> string -> Z) (tuple_combine : list Z -> Z)
  (run : seed) (c : obj) (id : string) (seq : Z) :
  ob_type c = Contact ->
  ob_slots c !! "id" = Some (VStr id) ->
  ob_slots c !! "seq" = Some (VInt seq) ->
  result (get_hash (builtin_hash seed int_hash str_hash tuple_combine run) c)
  = Ok (tuple_combine [str_hash run id; int_hash seq]).
Proof.
  intros T Hid Hseq.
  rewrite get_hash_Contact, Event_get_hash_result by done.
  unfold field. by rewrite Hid, Hseq.
Qed.




(* ===================================================================== *)
(** ** Construction does not validate *)
(* ===================================================================== *)

(** Counterexample to C3: the constructor accepts neighbor lists of
    five entries; the Contact it returns has a table of five entries,
    all of which appear in its debug string. *)
Lemma Contact_five_neighbors_accepted :
  new_Contact (VInt 1700000000) (VInt 0x0afe0001) (VInt 1105) (VInt 77)
    (Some (VList [1; 2; 3; 4; 5])) (Some (VList [0; 1; 2; 3; 0]))
    (Some (VList [1; 1; 1; 1; 1])) None None
  = Ok contact_five
  /\ slot_length contact_five "seen_id" = Some 5%nat
  /\ slot_length contact_five "seen_pwr" = Some 5%nat
  /\ slot_length contact_five "seen_cnt" = Some 5%nat
  /\ ~ (5 <= 4)%nat
  /\ result (Contact_repr contact_five)
     = Ok "C 1700000000 0x0afe0001 1105 0x0000 0x0000004d 0 [1(0) #1] [2(1) #1] [3(2) #1] [4(3) #1] [5(0) #1]".
Proof.
  split; [reflexivity|].
  repeat (split; [vm_compute; reflexivity|]).
  split; [lia | vm_compute; reflexivity].
Qed.

(** C3, amended. The Contact constructor does not validate the neighbor
    table: whatever the three lists and their lengths, construction
    succeeds and stores them exactly as given, neither truncated nor
    rejected; so the table of the Contact has at most 4 entries exactly
    when the list given to the constructor has. *)
Theorem Contact_neighbors_stored (t ip id seq : val)
  (seen_id seen_pwr seen_cnt : list Z) (flags boot_count : option val) :
  exists c,
    new_Contact t ip id seq (Some (VList seen_id)) (Some (VList seen_pwr))
      (Some (VList seen_cnt)) flags boot_count = Ok c
    /\ field c "seen_id" = Ok (VList seen_id)
    /\ field c "seen_pwr" = Ok (VList seen_pwr)
    /\ field c "seen_cnt" = Ok (VList seen_cnt)
    /\ slot_length c "seen_id" = Some (length seen_id)
    /\ ((exists k, slot_length c "seen_id" = Some k /\ (k <= 4)%nat)
        <-> (length seen_id <= 4)%nat).
Proof.
  rewrite new_Contact_ok. eexists. split; [reflexivity|].
  unfold field, slot_length. simpl ob_slots.
  destruct (Contact_slots_lookup t ip id seq (VList seen_id) (VList seen_pwr)
              (VList seen_cnt) (kwarg flags (VInt 0)) (kwarg boot_count (VInt 0)))
    as (_ & _ & _ & _ & Hid & Hpwr & Hcnt & _).
  rewrite Hid, Hpwr, Hcnt. repeat split; try done.
  - intros (k & [= <-] & Hk). done.
  - intros Hk. eauto.
Qed.

(** Counterexample to C4: the constructor accepts the strength 7; the
    Sighting it returns has strength 7, outside [0, 3], and prints it. *)
Lemma Sighting_strength_seven_accepted :
  new_Sighting (VInt 1700000000) (VInt 0x0afe0001) (VInt 0x1234) (VInt 7)
    (VInt 7) (VInt 1) None None
  = Ok sighting_seven
  /\ field sighting_seven "strength" = Ok (VInt 7)
  /\ ~ (0 <= 7 <= 3)
  /\ result (Sighting_repr sighting_seven)
     = Ok "S 1700000000 0x0afe0001 4660 0x00000007 7 1 0 0".
Proof.
  split; [reflexivity|].
  split; [vm_compute; reflexivity|].
  split; [lia | vm_compute; reflexivity].
Qed.

(** C4, amended. The Sighting constructor does not validate the
    strength: whatever value it is given, construction succeeds and
    stores that value unchanged, neither clamped nor rejected; so the
    strength of the Sighting is in [0, 3] exactly when the value given
    to the constructor is. *)
Theorem Sighting_strength_stored (t ip id seq strength flags : val)
  (last_seen boot_count : option val) :
  exists s,
    new_Sighting t ip id seq strength flags last_seen boot_count = Ok s
    /\ field s "strength" = Ok strength
    /\ ((exists z, field s "strength" = Ok (VInt z) /\ 0 <= z <= 3)
        <-> (exists z, strength = VInt z /\ 0 <= z <= 3)).
Proof.
  rewrite new_Sighting_ok. eexists. split; [reflexivity|].
  unfold field. simpl ob_slots.
  destruct (Sighting_slots_lookup t ip id seq strength flags
              (kwarg last_seen (VInt 0)) (kwarg boot_count (VInt 0)))
    as (_ & _ & _ & _ & Hst & _).
  rewrite Hst. split; [done|].
  split; intros (z & Hz & Hr); exists z; split; congruence || done.
Qed.

(* ===================================================================== *)
(** ** Debug strings *)
(* ===================================================================== *)

(** The debug string of a Sighting whose fields are integers, with the
    reader address and the sequence number within 32 bits. *)
Lemma Sighting_repr_format (t ip id seq strength flags last_seen boot_count : Z) :
  0 <= ip < 2 ^ 32 ->
  0 <= seq < 2 ^ 32 ->
  res_bind
    (new_Sighting (VInt t) (VInt ip) (VInt id) (VInt seq) (VInt strength)
       (VInt flags) (Some (VInt last_seen)) (Some (VInt boot_count)))
    (fun s => result (Sighting_repr s))
  = Ok ("S " +:+ dec t +:+ " 0x" +:+ hex_field 8 ip +:+ " " +:+ dec id
        +:+ " 0x" +:+ hex_field 8 seq +:+ " " +:+ dec strength +:+ " "
        +:+ dec flags +:+ " " +:+ dec last_seen +:+ " " +:+ dec boot_count).
Proof.
  intros Hip Hseq. rewrite new_Sighting_ok. simpl res_bind. simpl kwarg.
  destruct (Sighting_slots_lookup (VInt t) (VInt ip) (VInt id) (VInt seq)
              (VInt strength) (VInt flags) (VInt last_seen) (VInt boot_count))
    as (H1 & H2 & H3 & H4 & H5 & H6 & H7 & H8).
  erewrite Sighting_repr_ints by (simpl ob_slots; eassumption).
  unfold result.
  rewrite !format_hex_field by (simpl; lia). done.
Qed.

(** C5. The Sighting constructed from tagId 0x1234, sequence 7,
    strength 2, flags 1, lastSeenId 1, bootCount 3, timestamp
    1700000000 and reporterAddress 0x0afe0001 has the debug string
    "S 1700000000 0x0afe0001 4660 0x00000007 2 1 1 3", which is the
    general Sighting format with both hexadecimal fields of 8 digits. *)
Theorem Sighting_repr_example :
  res_bind
    (new_Sighting (VInt 1700000000) (VInt 0x0afe0001) (VInt 0x1234)
       (VInt 0x00000007) (VInt 2) (VInt 0x01) (Some (VInt 0x0001))
       (Some (VInt 3)))
    (fun s => result (Sighting_repr s))
  = Ok "S 1700000000 0x0afe0001 4660 0x00000007 2 1 1 3"
  /\ "S 1700000000 0x0afe0001 4660 0x00000007 2 1 1 3"
     = "S " +:+ dec 1700000000 +:+ " 0x" +:+ hex_field 8 0x0afe0001 +:+ " "
       +:+ dec 0x1234 +:+ " 0x" +:+ hex_field 8 7 +:+ " " +:+ dec 2 +:+ " "
       +:+ dec 1 +:+ " " +:+ dec 1 +:+ " " +:+ dec 3
  /\ hex_field 8 0x0afe0001 = "0afe0001"
  /\ hex_field 8 7 = "00000007".
Proof. repeat split; vm_compute; reflexivity. Qed.

(** The entries of the table are those of the three lists cut to the
    length of the shortest. *)
Lemma neighbors_take (ids pwrs cnts : list Z) :
  let m := (length ids `min` (length pwrs `min` length cnts))%nat in
  neighbors ids pwrs cnts = neighbors (take m ids) (take m pwrs) (take m cnts).
Proof.
  revert pwrs cnts. induction ids as [|i ids IH]; intros pwrs cnts; [done|].
  destruct pwrs as [|p pwrs]; [done|].
  destruct cnts as [|c cnts]; [done|].
  simpl. f_equal. apply IH.
Qed.

Lemma Contact_repr_constructed (t ip id boot_count seq flags : Z)
  (seen_id seen_pwr seen_cnt : list Z) :
  res_bind
    (new_Contact (VInt t) (VInt ip) (VInt id) (VInt seq)
       (Some (VList seen_id)) (Some (VList seen_pwr)) (Some (VList seen_cnt))
       (Some (VInt flags)) (Some (VInt boot_count)))
    (fun c => result (Contact_repr c))
  = Ok (Contact_header t ip id boot_count seq flags
        +:+ concat_strings (segments seen_id seen_pwr seen_cnt)).
Proof.
  rewrite new_Contact_ok. simpl res_bind. simpl kwarg.
  destruct (Contact_slots_lookup (VInt t) (VInt ip) (VInt id) (VInt seq)
              (VList seen_id) (VList seen_pwr) (VList seen_cnt)
              (VInt flags) (VInt boot_count))
    as (H1 & H2 & H3 & H4 & H5 & H6 & H7 & H8 & H9).
  erewrite Contact_repr_ints by (simpl ob_slots; eassumption).
  reflexivity.
Qed.

(** C6. The debug string of a Contact is
    "C <t> 0x<ip> <id> 0x<bootCount> 0x<seq> <flags>" followed by one
    segment " [<neighborId>(<pwr>) #<count>]" per entry of the neighbor
    table, in table order; [ip] and [seq] (32-bit unsigned) fill exactly
    8 hexadecimal digits and [bootCount] (16-bit) exactly 4. *)
Theorem Contact_repr_format (t ip id boot_count seq flags : Z)
  (seen_id seen_pwr seen_cnt : list Z) :
  0 <= ip < 2 ^ 32 ->
  0 <= seq < 2 ^ 32 ->
  0 <= boot_count < 2 ^ 16 ->
  res_bind
    (new_Contact (VInt t) (VInt ip) (VInt id) (VInt seq)
       (Some (VList seen_id)) (Some (VList seen_pwr)) (Some (VList seen_cnt))
       (Some (VInt flags)) (Some (VInt boot_count)))
    (fun c => result (Contact_repr c))
  = Ok ("C " +:+ dec t +:+ " 0x" +:+ hex_field 8 ip +:+ " " +:+ dec id
        +:+ " 0x" +:+ hex_field 4 boot_count +:+ " 0x" +:+ hex_field 8 seq
        +:+ " " +:+ dec flags
        +:+ concat_strings
              ((fun e : Z * Z * Z =>
                  " [" +:+ dec e.1.1 +:+ "(" +:+ dec e.1.2 +:+ ") #"
                  +:+ dec e.2 +:+ "]")
               <$> neighbors seen_id seen_pwr seen_cnt))
  /\ String.length (hex_field 8 ip) = 8%nat
  /\ String.length (hex_field 4 boot_count) = 4%nat
  /\ String.length (hex_field 8 seq) = 8%nat.
Proof.
  intros Hip Hseq Hbc. rewrite Contact_repr_constructed.
  rewrite !hex_field_length. repeat split.
  unfold Contact_header.
  rewrite !format_hex_field by (simpl; lia).
  f_equal. by rewrite !app_assoc_str.
Qed.

Lemma Contact_repr_format_witness :
  (0 <= 0x0afe0001 < 2 ^ 32 /\ 0 <= 77 < 2 ^ 32 /\ 0 <= 3 < 2 ^ 16)
  /\ res_bind
       (new_Contact (VInt 1700000000) (VInt 0x0afe0001) (VInt 1105) (VInt 77)
          (Some (VList [1200; 1201])) (Some (VList [0; 2]))
          (Some (VList [3; 1])) (Some (VInt 0)) (Some (VInt 3)))
       (fun c => result (Contact_repr c))
     = Ok ("C " +:+ dec 1700000000 +:+ " 0x" +:+ hex_field 8 0x0afe0001 +:+ " "
           +:+ dec 1105 +:+ " 0x" +:+ hex_field 4 3 +:+ " 0x"
           +:+ hex_field 8 77 +:+ " " +:+ dec 0
           +:+ concat_strings
                 ((fun e : Z * Z * Z =>
                     " [" +:+ dec e.1.1 +:+ "(" +:+ dec e.1.2 +:+ ") #"
                     +:+ dec e.2 +:+ "]")
                  <$> neighbors [1200; 1201] [0; 2] [3; 1])).
Proof.
  split; [lia|].
  apply (Contact_repr_format 1700000000 0x0afe0001 1105 3 77 0
           [1200; 1201] [0; 2] [3; 1]); lia.
Defined.

(** The debug string of [contact_a], written out. *)
Lemma Contact_repr_example :
  result (Contact_repr contact_a)
  = Ok "C 1700000000 0x0afe0001 1105 0x0003 0x0000004d 0 [1200(0) #3] [1201(2) #1]".
Proof. vm_compute. reflexivity. Qed.

(** C10. When the three neighbor lists of a Contact have different
    lengths, the debug string is still produced, without error; it has
    exactly as many neighbor segments as the shortest list has entries,
    built from the leading entries of the three lists, and the entries
    beyond that length in the longer lists leave no trace. *)
Theorem Contact_repr_unequal_lists (t ip id boot_count seq flags : Z)
  (seen_id seen_pwr seen_cnt : list Z) :
  let m := (length seen_id `min` (length seen_pwr `min` length seen_cnt))%nat in
  exists s,
    res_bind
      (new_Contact (VInt t) (VInt ip) (VInt id) (VInt seq)
         (Some (VList seen_id)) (Some (VList seen_pwr)) (Some (VList seen_cnt))
         (Some (VInt flags)) (Some (VInt boot_count)))
      (fun c => result (Contact_repr c))
    = Ok s
    /\ s = Contact_header t ip id boot_count seq flags
           +:+ concat_strings (segments seen_id seen_pwr seen_cnt)
    /\ length (segments seen_id seen_pwr seen_cnt) = m
    /\ count_char "[" s = m
    /\ segments seen_id seen_pwr seen_cnt
       = segments (take m seen_id) (take m seen_pwr) (take m seen_cnt).
Proof.
  intros m. rewrite Contact_repr_constructed. eexists. split; [reflexivity|].
  split; [reflexivity|]. unfold segments.
  rewrite length_fmap, length_neighbors. split; [done|]. split.
  - rewrite count_char_app, count_bracket_header, count_bracket_segments.
    by rewrite length_neighbors.
  - by rewrite (neighbors_take seen_id seen_pwr seen_cnt).
Qed.

(** Lists of 3, 1 and 2 entries: one segment. *)
Lemma Contact_repr_unequal_example :
  res_bind
    (new_Contact (VInt 1700000000) (VInt 0x0afe0001) (VInt 1105) (VInt 77)
       (Some (VList [1200; 1201; 1202])) (Some (VList [2]))
       (Some (VList [3; 1])) None None)
    (fun c => result (Contact_repr c))
  = Ok "C 1700000000 0x0afe0001 1105 0x0000 0x0000004d 0 [1200(2) #3]".
Proof. vm_compute. reflexivity. Qed.

(* ===================================================================== *)
(** ** Immutability and discriminators *)
(* ===================================================================== *)






(** C9. The class attribute [protocol] is 24 for [Sighting] and 69 for
    [Contact], on the class and on every instance; the two values
    differ, so that the discriminator tells the two kinds apart; the
    base class [Event] has none. *)
Theorem protocol_discriminators :
  protocol Sighting = Ok (VInt 24)
  /\ protocol Contact = Ok (VInt 69)
  /\ protocol Sighting <> protocol Contact
  /\ protocol Event = Raise AttributeError
  /\ (forall t ip id seq strength flags last_seen boot_count,
      res_bind
        (new_Sighting t ip id seq strength flags last_seen boot_count)
        (fun s => result (getattr "protocol" s))
      = Ok (VInt 24))
  /\ (forall t ip id seq seen_id seen_pwr seen_cnt flags boot_count,
      res_bind
        (new_Contact t ip id seq seen_id seen_pwr seen_cnt flags boot_count)
        (fun c => result (getattr "protocol" c))
      = Ok (VInt 69)).
Proof.
  split; [reflexivity|]. split; [reflexivity|].
  split; [discriminate|]. split; [reflexivity|].
  split; intros.
  - rewrite new_Sighting_ok. simpl res_bind. unfold getattr, Sighting_slots.
    simpl ob_slots. by simplify_map_eq.
  - rewrite new_Contact_ok. simpl res_bind. unfold getattr, Contact_slots.
    simpl ob_slots. by simplify_map_eq.
Qed.

(* ===================================================================== *)
(** ** Printed integers read back *)
(* ===================================================================== *)

Lemma digit_char_in_alphabet (d : Z) : digit_char d ∈ digit_alphabet.
Proof.
  unfold digit_char. generalize (Z.to_nat d). intros n.
  apply list_elem_of_In.
  do 16 (destruct n as [|n]; [cbv; tauto|]).
  destruct n; cbv; tauto.
Qed.

Lemma digit_of_digit_char (d : Z) :
  0 <= d < 16 -> digit_of_char (digit_char d) = d.
Proof.
  intros Hd.
  assert (Hn : exists n, d = Z.of_nat n /\ (n < 16)%nat)
    by (exists (Z.to_nat d); lia).
  destruct Hn as (n & -> & Hn). unfold digit_char. rewrite Nat2Z.id.
  do 16 (destruct n as [|n]; [reflexivity|]). lia.
Qed.

Lemma digit_char_not_minus (d : Z) : digit_char d <> "-"%char.
Proof.
  intros H. pose proof (digit_char_in_alphabet d) as Hin.
  rewrite H in Hin. apply list_elem_of_In in Hin. cbv in Hin.
  repeat (destruct Hin as [Hin|Hin]; [discriminate|]). done.
Qed.

Lemma read_digits_str (base : Z) (ds : list Z) : forall acc : Z,
  Forall (fun d => 0 <= d < 16) ds ->
  read_digits base acc (str_of_digits ds)
  = foldl (fun a d => a * base + d) acc ds.
Proof.
  induction ds as [|d ds IH]; intros acc Hds; [reflexivity|].
  inversion Hds as [|? ? Hd Hrest]; subst.
  simpl. rewrite digit_of_digit_char by done. by apply IH.
Qed.

Lemma digits_go_range (base : Z) (fuel : nat) : forall (n : Z) (acc : list Z),
  0 < base ->
  Forall (fun d => 0 <= d < base) acc ->
  Forall (fun d => 0 <= d < base) (digits_go base fuel n acc).
Proof.
  induction fuel as [|f IH]; intros n acc Hb Hacc; [done|].
  simpl. assert (0 <= n mod base < base) by (apply Z.mod_pos_bound; lia).
  destruct (n / base =? 0); [by constructor|].
  apply IH; [done | by constructor].
Qed.

Lemma digits_range (base n : Z) :
  0 < base -> Forall (fun d => 0 <= d < base) (digits base n).
Proof. intros Hb. unfold digits. by apply digits_go_range. Qed.

Lemma digits_go_nonempty (base : Z) (fuel : nat) (n : Z) (acc : list Z) :
  acc <> [] \/ fuel <> O -> digits_go base fuel n acc <> [].
Proof.
  revert n acc. induction fuel as [|f IH]; intros n acc H.
  - simpl. by destruct H.
  - simpl. destruct (n / base =? 0); [done|]. apply IH. by left.
Qed.

Lemma digits_nonempty (base n : Z) : digits base n <> [].
Proof. unfold digits. apply digits_go_nonempty. by right. Qed.

Lemma read_int_str_of_digits (base : Z) (ds : list Z) :
  ds <> [] ->
  Forall (fun d => 0 <= d < 16) ds ->
  read_int base (str_of_digits ds) = foldl (fun a d => a * base + d) 0 ds.
Proof.
  intros Hne Hds. destruct ds as [|d ds]; [done|].
  rewrite <- read_digits_str by done.
  simpl str_of_digits. unfold read_int.
  by rewrite bool_decide_eq_false_2 by apply digit_char_not_minus.
Qed.

(** The text of an integer, as [%d], [%x], [%0Nx] print it, reads back
    as the integer. *)
Lemma read_int_format_int (base : Z) (zero : bool) (w : nat) (z : Z) :
  2 <= base <= 16 ->
  zero = true \/ w = O ->
  read_int base (format_int base zero w z) = z.
Proof.
  intros Hb Hpad.
  assert (Hform : exists k,
             format_int base zero w z
             = (if z <? 0 then chr "-" else EmptyString)
               +:+ str_of_digits (replicate k 0 ++ digits base (Z.abs z))).
  { unfold format_int. destruct zero.
    - eexists. by rewrite str_of_digits_app, <- repeat_zero_digits.
    - exists O. destruct Hpad as [?| ->]; [done|]. reflexivity. }
  destruct Hform as [k Hform]. rewrite Hform. clear Hform.
  assert (Hrange : Forall (fun d => 0 <= d < 16) (replicate k 0 ++ digits base (Z.abs z))).
  { apply Forall_app. split.
    - apply Forall_replicate. lia.
    - eapply Forall_impl; [apply digits_range; lia|]. simpl. intros. lia. }
  assert (Hval : foldl (fun a d => a * base + d) 0
                   (replicate k 0 ++ digits base (Z.abs z)) = Z.abs z).
  { change (digits_value base (replicate k 0 ++ digits base (Z.abs z)) = Z.abs z).
    rewrite digits_value_zeros. apply digits_value_digits; lia. }
  destruct (Z.ltb_spec z 0) as [Hneg|Hpos].
  - unfold chr. rewrite app_cons, app_empty_l. simpl read_int.
    rewrite read_digits_str, Hval by done. lia.
  - rewrite app_empty_l, read_int_str_of_digits, Hval; [lia | | done].
    intros Hnil. apply app_eq_nil in Hnil as [_ Hnil].
    by apply digits_nonempty in Hnil.
Qed.

Lemma format_int_inj (base : Z) (zero : bool) (w : nat) (z1 z2 : Z) :
  2 <= base <= 16 ->
  zero = true \/ w = O ->
  format_int base zero w z1 = format_int base zero w z2 -> z1 = z2.
Proof.
  intros Hb Hpad Heq.
  rewrite <- (read_int_format_int base zero w z1), <- (read_int_format_int base zero w z2)
    by done.
  by rewrite Heq.
Qed.

Lemma dec_inj (z1 z2 : Z) : dec z1 = dec z2 -> z1 = z2.
Proof. apply format_int_inj; [lia | by right]. Qed.

(* ===================================================================== *)
(** ** Separators *)
(* ===================================================================== *)

Lemma count_char_digits (c : ascii) (ds : list Z) :
  c ∉ digit_alphabet -> count_char c (str_of_digits ds) = O.
Proof.
  intros Hc. induction ds as [|d ds IH]; [reflexivity|].
  simpl. rewrite IH. case_bool_decide as H; [|done].
  destruct Hc. rewrite <- H. apply digit_char_in_alphabet.
Qed.

Lemma count_char_repeat (c a : ascii) (k : nat) :
  a <> c -> count_char c (repeat_char k a) = O.
Proof.
  intros Hc. induction k as [|k IH]; [reflexivity|].
  simpl. rewrite IH. by case_bool_decide.
Qed.

(** A character that is neither a digit nor the minus sign does not
    occur in a printed integer (printed without space padding). *)
Lemma count_char_format_int (c : ascii) (base : Z) (zero : bool) (w : nat) (z : Z) :
  c <> "-"%char ->
  c ∉ digit_alphabet ->
  zero = true \/ w = O ->
  count_char c (format_int base zero w z) = O.
Proof.
  intros Hminus Hdigit Hpad. unfold format_int.
  assert (Hzero : "0"%char <> c).
  { intros <-. apply Hdigit, list_elem_of_In. cbv. tauto. }
  assert (Hsign : count_char c (if z <? 0 then chr "-" else EmptyString) = O).
  { destruct (z <? 0); [|done]. simpl. by case_bool_decide. }
  destruct zero.
  - by rewrite !count_char_app, Hsign, count_char_repeat, count_char_digits.
  - destruct Hpad as [?| ->]; [done|].
    by rewrite !count_char_app, Hsign, count_char_digits.
Qed.

Lemma count_char_dec (c : ascii) (z : Z) :
  c <> "-"%char -> c ∉ digit_alphabet -> count_char c (dec z) = O.
Proof. intros. apply count_char_format_int; auto. Qed.

Ltac not_a_digit :=
  first [ discriminate
        | let H := fresh in
          intros H; apply list_elem_of_In in H; cbv in H;
          repeat (destruct H as [H|H]; [discriminate|]); exact H ].

(** Two texts cut at the first occurrence of a separator: equal wholes
    have equal parts. *)
Lemma split_at (c : ascii) (s1 : string) : forall s2 r1 r2 : string,
  count_char c s1 = O ->
  count_char c s2 = O ->
  empty_or_starts c r1 ->
  empty_or_starts c r2 ->
  s1 +:+ r1 = s2 +:+ r2 ->
  s1 = s2 /\ r1 = r2.
Proof.
  induction s1 as [|a s1 IH]; intros s2 r1 r2 H1 H2 Hr1 Hr2 Heq.
  - destruct s2 as [|b s2]; [done|].
    rewrite app_empty_l, app_cons in Heq. exfalso.
    simpl in H2. case_bool_decide as Hb; [done|].
    destruct Hr1 as [->|[rest ->]]; [done|].
    injection Heq as -> _. done.
  - simpl in H1. case_bool_decide as Ha; [done|].
    destruct s2 as [|b s2].
    + rewrite app_empty_l, app_cons in Heq. exfalso.
      destruct Hr2 as [->|[rest ->]]; [done|].
      injection Heq as -> _. done.
    + rewrite !app_cons in Heq. injection Heq as -> Heq.
      simpl in H2. case_bool_decide; [done|].
      destruct (IH s2 r1 r2) as [-> ->]; auto.
Qed.

Lemma starts_cons (c : ascii) (s : string) : empty_or_starts c (String c s).
Proof. right. by exists s. Qed.

(* ===================================================================== *)
(** ** Methods on arbitrary values *)
(* ===================================================================== *)

(** [Sighting.__repr__] formats the eight slots, whatever they hold. *)
Lemma Sighting_repr_vals (self : obj)
  (t ip id seq strength flags last_seen boot_count : val) :
  ob_slots self !! "t" = Some t ->
  ob_slots self !! "ip" = Some ip ->
  ob_slots self !! "id" = Some id ->
  ob_slots self !! "seq" = Some seq ->
  ob_slots self !! "strength" = Some strength ->
  ob_slots self !! "flags" = Some flags ->
  ob_slots self !! "last_seen" = Some last_seen ->
  ob_slots self !! "boot_count" = Some boot_count ->
  result (Sighting_repr self)
  = py_format "S %ld 0x%08x %d 0x%08x %d %d %s %s"
      [t; ip; id; seq; strength; flags; last_seen; boot_count].
Proof.
  intros Ht Hip Hid Hseq Hst Hfl Hls Hbc.
  unfold Sighting_repr, bind, getattr.
  rewrite Ht, Hip, Hid, Hseq, Hst, Hfl, Hls, Hbc.
  unfold lift, result. by destruct (py_format _ _).
Qed.

(** [Contact.__repr__] zips the three neighbor slots, runs the loop and
    formats the six scalar slots, whatever they hold. *)
Lemma Contact_repr_vals (self : obj)
  (t ip id seq seen_id seen_pwr seen_cnt flags boot_count : val) :
  ob_slots self !! "t" = Some t ->
  ob_slots self !! "ip" = Some ip ->
  ob_slots self !! "id" = Some id ->
  ob_slots self !! "seq" = Some seq ->
  ob_slots self !! "seen_id" = Some seen_id ->
  ob_slots self !! "seen_pwr" = Some seen_pwr ->
  ob_slots self !! "seen_cnt" = Some seen_cnt ->
  ob_slots self !! "flags" = Some flags ->
  ob_slots self !! "boot_count" = Some boot_count ->
  result (Contact_repr self)
  = res_bind (py_zip seen_id seen_pwr seen_cnt) (fun items =>
    res_bind (Contact_repr_loop items EmptyString) (fun clist =>
    py_format "C %ld 0x%08x %d 0x%04x 0x%08x %d%s"
      [t; ip; id; boot_count; seq; flags; VStr clist])).
Proof.
  intros Ht Hip Hid Hseq Hsid Hpwr Hcnt Hfl Hbc.
  unfold Contact_repr, bind, getattr.
  rewrite Hsid, Hpwr, Hcnt. unfold lift at 1.
  destruct (py_zip seen_id seen_pwr seen_cnt) as [items|e]; [|done].
  unfold res_bind at 1. cbv beta iota. unfold lift at 1.
  destruct (Contact_repr_loop items EmptyString) as [clist|e]; [|done].
  unfold res_bind at 1. cbv beta iota.
  rewrite Ht, Hip, Hid, Hbc, Hseq, Hfl.
  unfold lift, result. by destruct (py_format _ _).
Qed.

(* ===================================================================== *)
(** ** Keys of constructed and of incomplete events *)
(* ===================================================================== *)

Lemma new_Event_ok (t ip id seq : val) :
  new_Event t ip id seq
  = Ok (Obj Event (<["seq" := seq]> (<["id" := id]> (<["ip" := ip]> (<["t" := t]> ∅))))).
Proof. reflexivity. Qed.

(** X1. The key of a freshly constructed event is the hash of its
    constructor arguments: [(id, seq)] for an Event and for a Contact,
    [(id, boot_count, seq)] for a Sighting, with [boot_count] 0 when
    the keyword was left out; [get_hash] raises nothing of its own. *)
Theorem constructed_event_keys (hash : list val -> res Z) (t ip id seq : val) :
  (forall (strength flags : val) (last_seen boot_count : option val),
     res_bind (new_Sighting t ip id seq strength flags last_seen boot_count)
       (fun s => result (get_hash hash s))
     = hash [id; kwarg boot_count (VInt 0); seq])
  /\ (forall seen_id seen_pwr seen_cnt flags boot_count : option val,
        res_bind
          (new_Contact t ip id seq seen_id seen_pwr seen_cnt flags boot_count)
          (fun c => result (get_hash hash c))
        = hash [id; seq])
  /\ res_bind (new_Event t ip id seq) (fun e => result (get_hash hash e))
     = hash [id; seq].
Proof.
  split; [|split].
  - intros. rewrite new_Sighting_ok. simpl res_bind.
    rewrite get_hash_Sighting, Sighting_get_hash_result by done.
    unfold field, Sighting_slots. simpl ob_slots. by simplify_map_eq.
  - intros. rewrite new_Contact_ok. simpl res_bind.
    rewrite get_hash_Contact, Event_get_hash_result by done.
    unfold field, Contact_slots. simpl ob_slots. by simplify_map_eq.
  - rewrite new_Event_ok. simpl res_bind.
    rewrite get_hash_Event, Event_get_hash_result by done.
    unfold field. simpl ob_slots. by simplify_map_eq.
Qed.

(** X2. Two Sightings with the same tag id and sequence number but
    different boot counts get different keys as soon as [hash] tells the
    two triples apart, whereas the base method [Event.get_hash], the one
    Contact uses, gives both the same key. *)
Theorem Sighting_key_separates_boot_counts (hash : list val -> res Z)
  (s1 s2 : obj) (id seq b1 b2 : val) :
  ob_type s1 = Sighting ->
  ob_type s2 = Sighting ->
  ob_slots s1 !! "id" = Some id ->
  ob_slots s2 !! "id" = Some id ->
  ob_slots s1 !! "seq" = Some seq ->
  ob_slots s2 !! "seq" = Some seq ->
  ob_slots s1 !! "boot_count" = Some b1 ->
  ob_slots s2 !! "boot_count" = Some b2 ->
  hash [id; b1; seq] <> hash [id; b2; seq] ->
  result (get_hash hash s1) <> result (get_hash hash s2)
  /\ result (Event_get_hash hash s1) = result (Event_get_hash hash s2).
Proof.
  intros T1 T2 Hid1 Hid2 Hseq1 Hseq2 Hb1 Hb2 Hne.
  rewrite (get_hash_Sighting hash s1 T1), (get_hash_Sighting hash s2 T2).
  rewrite !Sighting_get_hash_result, !Event_get_hash_result. unfold field.
  rewrite Hid1, Hid2, Hseq1, Hseq2, Hb1, Hb2. simpl. done.
Qed.

Lemma Sighting_key_separates_boot_counts_witness :
  (ob_type sighting_a = Sighting /\ ob_type sighting_rebooted = Sighting
   /\ ob_slots sighting_a !! "id" = Some (VInt 0x1234)
   /\ ob_slots sighting_rebooted !! "id" = Some (VInt 0x1234)
   /\ ob_slots sighting_a !! "seq" = Some (VInt 7)
   /\ ob_slots sighting_rebooted !! "seq" = Some (VInt 7)
   /\ ob_slots sighting_a !! "boot_count" = Some (VInt 3)
   /\ ob_slots sighting_rebooted !! "boot_count" = Some (VInt 4)
   /\ sample_hash [VInt 0x1234; VInt 3; VInt 7]
      <> sample_hash [VInt 0x1234; VInt 4; VInt 7])
  /\ result (get_hash sample_hash sighting_a)
     <> result (get_hash sample_hash sighting_rebooted)
  /\ result (Event_get_hash sample_hash sighting_a)
     = result (Event_get_hash sample_hash sighting_rebooted).
Proof.
  split; [repeat split; try reflexivity; vm_compute; discriminate|].
  apply (Sighting_key_separates_boot_counts sample_hash sighting_a
           sighting_rebooted (VInt 0x1234) (VInt 7) (VInt 3) (VInt 4));
    try reflexivity.
  vm_compute. discriminate.
Defined.

(** X3. On an instance with an identity field never assigned (one made
    without running [__init__]), [get_hash] raises [AttributeError]; it
    does not hash a partial tuple. *)
Theorem get_hash_unset_field (hash : list val -> res Z) (self : obj) :
  Exists (fun f => ob_slots self !! f = None) (identity_fields (ob_type self)) ->
  result (get_hash hash self) = Raise AttributeError.
Proof.
  intros Hex.
  destruct (ob_type self) eqn:T; simpl in Hex.
  - rewrite (get_hash_Event hash self T), Event_get_hash_result. unfold field.
    repeat (apply Exists_cons in Hex as [Hex|Hex]; [rewrite Hex; simpl;
      repeat (match goal with |- context [ob_slots self !! ?f] =>
                destruct (ob_slots self !! f); simpl end); done|]).
    by apply Exists_nil in Hex.
  - rewrite (get_hash_Sighting hash self T), Sighting_get_hash_result. unfold field.
    repeat (apply Exists_cons in Hex as [Hex|Hex]; [rewrite Hex; simpl;
      repeat (match goal with |- context [ob_slots self !! ?f] =>
                destruct (ob_slots self !! f); simpl end); done|]).
    by apply Exists_nil in Hex.
  - rewrite (get_hash_Contact hash self T), Event_get_hash_result. unfold field.
    repeat (apply Exists_cons in Hex as [Hex|Hex]; [rewrite Hex; simpl;
      repeat (match goal with |- context [ob_slots self !! ?f] =>
                destruct (ob_slots self !! f); simpl end); done|]).
    by apply Exists_nil in Hex.
Qed.

Lemma get_hash_unset_field_witness :
  Exists (fun f => ob_slots (new_obj Contact) !! f = None)
    (identity_fields (ob_type (new_obj Contact)))
  /\ result (get_hash sample_hash (new_obj Contact)) = Raise AttributeError.
Proof.
  split; [by apply Exists_cons_hd|].
  apply (get_hash_unset_field sample_hash (new_obj Contact)).
  by apply Exists_cons_hd.
Defined.

(* ===================================================================== *)
(** ** Debug strings: errors *)
(* ===================================================================== *)

(** X4. [Sighting.__repr__] prints [t], [ip], [id], [seq], [strength]
    and [flags] with numeric conversions and [last_seen], [boot_count]
    with [%s]: it returns the string when the first six hold integers,
    whether the last two hold an integer, a string or a list, and
    raises [TypeError] as soon as one of the six holds a string or a
    list. *)
Theorem Sighting_repr_type_check (t ip id seq strength flags : val)
  (last_seen boot_count : option val) :
  res_bind
    (new_Sighting t ip id seq strength flags last_seen boot_count)
    (fun s => result (Sighting_repr s))
  = match t, ip, id, seq, strength, flags with
    | VInt t', VInt ip', VInt id', VInt seq', VInt strength', VInt flags' =>
        Ok ("S " +:+ dec t' +:+ " 0x" +:+ format_int 16 true 8 ip' +:+ " "
            +:+ dec id' +:+ " 0x" +:+ format_int 16 true 8 seq' +:+ " "
            +:+ dec strength' +:+ " " +:+ dec flags' +:+ " "
            +:+ py_str (kwarg last_seen (VInt 0)) +:+ " "
            +:+ py_str (kwarg boot_count (VInt 0)))
    | _, _, _, _, _, _ => Raise TypeError
    end.
Proof.
  rewrite new_Sighting_ok. simpl res_bind.
  destruct (Sighting_slots_lookup t ip id seq strength flags
              (kwarg last_seen (VInt 0)) (kwarg boot_count (VInt 0)))
    as (H1 & H2 & H3 & H4 & H5 & H6 & H7 & H8).
  erewrite Sighting_repr_vals by (simpl ob_slots; eassumption).
  destruct t; [|reflexivity..].
  destruct ip; [|reflexivity..].
  destruct id; [|reflexivity..].
  destruct seq; [|reflexivity..].
  destruct strength; [|reflexivity..].
  destruct flags; [|reflexivity..].
  apply Sighting_format.
Qed.

(** X5. [Contact.__repr__] zips the three neighbor slots before
    anything else: when one of them holds an integer, which cannot be
    iterated, it raises [TypeError] whatever the other fields hold. *)
Theorem Contact_repr_not_iterable (t ip id seq seen_id seen_pwr seen_cnt : val)
  (flags boot_count : option val) :
  is_int seen_id || is_int seen_pwr || is_int seen_cnt = true ->
  res_bind
    (new_Contact t ip id seq (Some seen_id) (Some seen_pwr) (Some seen_cnt)
       flags boot_count)
    (fun c => result (Contact_repr c))
  = Raise TypeError.
Proof.
  intros Hint. rewrite new_Contact_ok. simpl res_bind. simpl kwarg.
  destruct (Contact_slots_lookup t ip id seq seen_id seen_pwr seen_cnt
              (kwarg flags (VInt 0)) (kwarg boot_count (VInt 0)))
    as (H1 & H2 & H3 & H4 & H5 & H6 & H7 & H8 & H9).
  erewrite Contact_repr_vals by (simpl ob_slots; eassumption).
  destruct seen_id, seen_pwr, seen_cnt; try discriminate Hint; reflexivity.
Qed.

Lemma Contact_repr_not_iterable_witness :
  is_int (VList [1200]) || is_int (VInt 2) || is_int (VList [3]) = true
  /\ res_bind
       (new_Contact (VInt 1700000000) (VInt 0x0afe0001) (VInt 1105) (VInt 77)
          (Some (VList [1200])) (Some (VInt 2)) (Some (VList [3])) None None)
       (fun c => result (Contact_repr c))
     = Raise TypeError.
Proof.
  split; [reflexivity|].
  apply (Contact_repr_not_iterable (VInt 1700000000) (VInt 0x0afe0001)
           (VInt 1105) (VInt 77) (VList [1200]) (VInt 2) (VList [3]) None None).
  reflexivity.
Defined.

(* ===================================================================== *)
(** ** Debug strings: one entry more *)
(* ===================================================================== *)

Lemma neighbors_snoc (ids : list Z) : forall (pwrs cnts : list Z) (i p c : Z),
  length ids = length pwrs ->
  length pwrs = length cnts ->
  neighbors (ids ++ [i]) (pwrs ++ [p]) (cnts ++ [c])
  = neighbors ids pwrs cnts ++ [(i, p, c)].
Proof.
  induction ids as [|a ids IH]; intros pwrs cnts i p c H1 H2.
  - destruct pwrs; [|done]. destruct cnts; [|done]. reflexivity.
  - destruct pwrs as [|b pwrs]; [done|]. destruct cnts as [|d cnts]; [done|].
    simpl in *. f_equal. apply IH; lia.
Qed.

Lemma concat_strings_snoc (l : list string) (s : string) :
  concat_strings (l ++ [s]) = concat_strings l +:+ s.
Proof.
  induction l as [|a l IH].
  - simpl. by rewrite app_empty_r.
  - simpl. by rewrite IH, app_assoc_str.
Qed.

Lemma segments_snoc (ids pwrs cnts : list Z) (i p c : Z) :
  length ids = length pwrs ->
  length pwrs = length cnts ->
  concat_strings (segments (ids ++ [i]) (pwrs ++ [p]) (cnts ++ [c]))
  = concat_strings (segments ids pwrs cnts) +:+ segment i p c.
Proof.
  intros H1 H2. unfold segments.
  rewrite neighbors_snoc, fmap_app by done.
  apply concat_strings_snoc.
Qed.

(** X6. When the three neighbor lists have the same length, adding one
    entry at the end of each adds exactly one segment at the end of the
    debug string and changes nothing before it. *)
Theorem Contact_repr_append_entry (t ip id boot_count seq flags : Z)
  (seen_id seen_pwr seen_cnt : list Z) (i p c : Z) :
  length seen_id = length seen_pwr ->
  length seen_pwr = length seen_cnt ->
  res_bind
    (new_Contact (VInt t) (VInt ip) (VInt id) (VInt seq)
       (Some (VList (seen_id ++ [i]))) (Some (VList (seen_pwr ++ [p])))
       (Some (VList (seen_cnt ++ [c]))) (Some (VInt flags))
       (Some (VInt boot_count)))
    (fun k => result (Contact_repr k))
  = res_bind
      (res_bind
         (new_Contact (VInt t) (VInt ip) (VInt id) (VInt seq)
            (Some (VList seen_id)) (Some (VList seen_pwr))
            (Some (VList seen_cnt)) (Some (VInt flags))
            (Some (VInt boot_count)))
         (fun k => result (Contact_repr k)))
      (fun s => Ok (s +:+ " [" +:+ dec i +:+ "(" +:+ dec p +:+ ") #"
                    +:+ dec c +:+ "]")).
Proof.
  intros H1 H2. rewrite !Contact_repr_constructed. simpl res_bind.
  rewrite segments_snoc by done. unfold segment.
  by rewrite !app_assoc_str.
Qed.

Lemma Contact_repr_append_entry_witness :
  (length [1200; 1201] = length [0; 2] /\ length [0; 2] = length [3; 1])
  /\ res_bind
       (new_Contact (VInt 1700000000) (VInt 0x0afe0001) (VInt 1105) (VInt 77)
          (Some (VList ([1200; 1201] ++ [1202]))) (Some (VList ([0; 2] ++ [1])))
          (Some (VList ([3; 1] ++ [5]))) (Some (VInt 0)) (Some (VInt 3)))
       (fun k => result (Contact_repr k))
     = res_bind
         (res_bind
            (new_Contact (VInt 1700000000) (VInt 0x0afe0001) (VInt 1105)
               (VInt 77) (Some (VList [1200; 1201])) (Some (VList [0; 2]))
               (Some (VList [3; 1])) (Some (VInt 0)) (Some (VInt 3)))
            (fun k => result (Contact_repr k)))
         (fun s => Ok (s +:+ " [" +:+ dec 1202 +:+ "(" +:+ dec 1 +:+ ") #"
                       +:+ dec 5 +:+ "]")).
Proof.
  split; [split; reflexivity|].
  apply (Contact_repr_append_entry 1700000000 0x0afe0001 1105 3 77 0
           [1200; 1201] [0; 2] [3; 1] 1202 1 5); reflexivity.
Defined.

(* ===================================================================== *)
(** ** Debug strings: nothing is lost *)
(* ===================================================================== *)

Lemma format_directive_08x (z : Z) :
  py_format "%08x" [VInt z] = Ok (format_int 16 true 8 z).
Proof. run_format. Qed.

Lemma format_directive_04x (z : Z) :
  py_format "%04x" [VInt z] = Ok (format_int 16 true 4 z).
Proof. run_format. Qed.

Lemma fixed_digits_range (base : Z) (w : nat) : forall n : Z,
  0 < base -> Forall (fun d => 0 <= d < base) (fixed_digits base w n).
Proof.
  induction w as [|w IH]; intros n Hb; [constructor|].
  simpl. apply Forall_app. split; [by apply IH|].
  constructor; [|constructor]. apply Z.mod_pos_bound. lia.
Qed.

Lemma digits_value_fixed_mod (base : Z) (w : nat) : forall n : Z,
  0 < base -> digits_value base (fixed_digits base w n) = n mod base ^ Z.of_nat w.
Proof.
  induction w as [|w IH]; intros n Hb.
  - simpl. by rewrite Z.mod_1_r.
  - simpl fixed_digits. rewrite digits_value_snoc, IH by done.
    rewrite Nat2Z.inj_succ, Z.pow_succ_r by lia.
    rewrite Z.rem_mul_r by (try apply Z.pow_pos_nonneg; lia). lia.
Qed.

Lemma read_int_hex_field (w : nat) (n : Z) :
  (1 <= w)%nat -> read_int 16 (hex_field w n) = n mod 16 ^ Z.of_nat w.
Proof.
  intros Hw. unfold hex_field.
  rewrite read_int_str_of_digits.
  - apply (digits_value_fixed_mod 16 w n). lia.
  - intros Hnil. apply (f_equal length) in Hnil.
    rewrite length_fixed_digits in Hnil. simpl in Hnil. lia.
  - apply fixed_digits_range. lia.
Qed.

Lemma format_int_is_hex_field (w : nat) (z : Z) :
  (1 <= w)%nat ->
  format_int 16 true w z = hex_field w z <-> 0 <= z < 16 ^ Z.of_nat w.
Proof.
  intros Hw. split; [|intros; by apply format_hex_field].
  intros Heq. apply (f_equal (read_int 16)) in Heq.
  rewrite read_int_format_int, read_int_hex_field in Heq by (lia || auto).
  rewrite Heq. apply Z.mod_pos_bound. apply Z.pow_pos_nonneg; lia.
Qed.

(** X8. [%08x] prints exactly the 8 hexadecimal digits of a value if
    and only if the value is in [0, 2^32), and [%04x] exactly 4 digits
    if and only if the value is in [0, 2^16): these are the only values
    of [ip], [seq] and [boot_count] that fit their fields. *)
Theorem hex_fields_fit_exactly (z : Z) :
  (py_format "%08x" [VInt z] = Ok (hex_field 8 z) <-> 0 <= z < 2 ^ 32)
  /\ (py_format "%04x" [VInt z] = Ok (hex_field 4 z) <-> 0 <= z < 2 ^ 16).
Proof.
  rewrite format_directive_08x, format_directive_04x.
  pose proof (format_int_is_hex_field 8 z) as H8.
  pose proof (format_int_is_hex_field 4 z) as H4.
  change (16 ^ Z.of_nat 8) with (2 ^ 32) in H8.
  change (16 ^ Z.of_nat 4) with (2 ^ 16) in H4.
  split; (split; [intros [= Heq]|intros Hr; f_equal]).
  - apply H8; [lia | done].
  - apply H8; [lia | done].
  - apply H4; [lia | done].
  - apply H4; [lia | done].
Qed.

(* ===================================================================== *)
(** ** Debug strings determine the event *)
(* ===================================================================== *)

Lemma Sighting_repr_constructed
  (t ip id seq strength flags last_seen boot_count : Z) :
  res_bind
    (new_Sighting (VInt t) (VInt ip) (VInt id) (VInt seq) (VInt strength)
       (VInt flags) (Some (VInt last_seen)) (Some (VInt boot_count)))
    (fun s => result (Sighting_repr s))
  = Ok ("S " +:+ dec t +:+ " 0x" +:+ format_int 16 true 8 ip +:+ " "
        +:+ dec id +:+ " 0x" +:+ format_int 16 true 8 seq +:+ " "
        +:+ dec strength +:+ " " +:+ dec flags +:+ " " +:+ dec last_seen
        +:+ " " +:+ dec boot_count).
Proof.
  rewrite new_Sighting_ok. simpl res_bind. simpl kwarg.
  destruct (Sighting_slots_lookup (VInt t) (VInt ip) (VInt id) (VInt seq)
              (VInt strength) (VInt flags) (VInt last_seen) (VInt boot_count))
    as (H1 & H2 & H3 & H4 & H5 & H6 & H7 & H8).
  erewrite Sighting_repr_ints by (simpl ob_slots; eassumption).
  reflexivity.
Qed.

(** Literal text in front of an equation is exposed character by
    character, then stripped. *)
Ltac expose_literals H :=
  repeat rewrite app_assoc_str in H;
  repeat rewrite app_cons in H;
  repeat rewrite app_empty_l in H.

(** Cut both sides of [H] at the separator [c]: the texts in front are
    equal (kept as [Hl]) and so is what follows the separator and the
    literal text after it (left in [H]). *)
Ltac cut_field H c Hl :=
  apply (split_at c) in H as [Hl H];
  [ injection H as H
  | assumption | assumption | apply starts_cons | apply starts_cons ].

(** A line of eight fields laid out as a Sighting prints them can be
    cut back into its fields, none of which holds a space. *)
Lemma Sighting_line_inj (a1 a2 a3 a4 a5 a6 a7 a8 b1 b2 b3 b4 b5 b6 b7 b8 : string) :
  Forall (fun s => count_char " " s = O)
    [a1; a2; a3; a4; a5; a6; a7; b1; b2; b3; b4; b5; b6; b7] ->
  "S " +:+ a1 +:+ " 0x" +:+ a2 +:+ " " +:+ a3 +:+ " 0x" +:+ a4 +:+ " "
    +:+ a5 +:+ " " +:+ a6 +:+ " " +:+ a7 +:+ " " +:+ a8
  = "S " +:+ b1 +:+ " 0x" +:+ b2 +:+ " " +:+ b3 +:+ " 0x" +:+ b4 +:+ " "
    +:+ b5 +:+ " " +:+ b6 +:+ " " +:+ b7 +:+ " " +:+ b8 ->
  a1 = b1 /\ a2 = b2 /\ a3 = b3 /\ a4 = b4 /\ a5 = b5 /\ a6 = b6
  /\ a7 = b7 /\ a8 = b8.
Proof.
  intros Hsp H.
  repeat match goal with
         | Hf : Forall _ (_ :: _) |- _ => inversion Hf; clear Hf; subst
         end.
  expose_literals H. injection H as H.
  cut_field H " "%char E1.
  cut_field H " "%char E2.
  cut_field H " "%char E3.
  cut_field H " "%char E4.
  cut_field H " "%char E5.
  cut_field H " "%char E6.
  cut_field H " "%char E7.
  by repeat split.
Qed.

Lemma count_space_dec (z : Z) : count_char " " (dec z) = O.
Proof. apply count_char_dec; not_a_digit. Qed.

Lemma count_space_hex (w : nat) (z : Z) :
  count_char " " (format_int 16 true w z) = O.
Proof. apply count_char_format_int; [not_a_digit | not_a_digit | by left]. Qed.

Lemma hex_inj (w : nat) (z1 z2 : Z) :
  format_int 16 true w z1 = format_int 16 true w z2 -> z1 = z2.
Proof. apply format_int_inj; [lia | by left]. Qed.

(** X9. The debug string of a Sighting determines the Sighting: two
    Sightings with integer fields and the same debug string have the
    same eight fields. *)
Theorem Sighting_repr_injective
  (t1 ip1 id1 seq1 strength1 flags1 last_seen1 boot_count1 : Z)
  (t2 ip2 id2 seq2 strength2 flags2 last_seen2 boot_count2 : Z) :
  res_bind
    (new_Sighting (VInt t1) (VInt ip1) (VInt id1) (VInt seq1) (VInt strength1)
       (VInt flags1) (Some (VInt last_seen1)) (Some (VInt boot_count1)))
    (fun s => result (Sighting_repr s))
  = res_bind
      (new_Sighting (VInt t2) (VInt ip2) (VInt id2) (VInt seq2) (VInt strength2)
         (VInt flags2) (Some (VInt last_seen2)) (Some (VInt boot_count2)))
      (fun s => result (Sighting_repr s)) ->
  t1 = t2 /\ ip1 = ip2 /\ id1 = id2 /\ seq1 = seq2 /\ strength1 = strength2
  /\ flags1 = flags2 /\ last_seen1 = last_seen2 /\ boot_count1 = boot_count2.
Proof.
  rewrite !Sighting_repr_constructed. intros H.
  apply (f_equal (fun r => match r with Ok s => s | Raise _ => EmptyString end)) in H.
  apply Sighting_line_inj in H
    as (Ht & Hip & Hid & Hseq & Hst & Hfl & Hls & Hbc).
  - apply dec_inj in Ht, Hid, Hst, Hfl, Hls, Hbc.
    apply hex_inj in Hip, Hseq.
    by repeat split.
  - repeat constructor; apply count_space_dec || apply count_space_hex.
Qed.

Lemma Sighting_repr_injective_witness :
  res_bind
    (new_Sighting (VInt 1700000000) (VInt 0x0afe0001) (VInt 0x1234) (VInt 7)
       (VInt 2) (VInt 1) (Some (VInt 1)) (Some (VInt 3)))
    (fun s => result (Sighting_repr s))
  = res_bind
      (new_Sighting (VInt 1700000000) (VInt 0x0afe0001) (VInt 0x1234) (VInt 7)
         (VInt 2) (VInt 1) (Some (VInt 1)) (Some (VInt 3)))
      (fun s => result (Sighting_repr s))
  /\ (1700000000 = 1700000000 /\ 0x0afe0001 = 0x0afe0001 /\ 0x1234 = 0x1234
      /\ 7 = 7 /\ 2 = 2 /\ 1 = 1 /\ 1 = 1 /\ 3 = 3).
Proof.
  split; [reflexivity|].
  apply (Sighting_repr_injective 1700000000 0x0afe0001 0x1234 7 2 1 1 3
           1700000000 0x0afe0001 0x1234 7 2 1 1 3).
  reflexivity.
Defined.

(** One segment, laid out as the loop of [Contact.__repr__] prints it,
    can be cut back into its three fields and what follows. *)
Lemma segment_line_inj (a b c a' b' c' r r' : string) :
  count_char "(" a = O -> count_char "(" a' = O ->
  count_char ")" b = O -> count_char ")" b' = O ->
  count_char "]" c = O -> count_char "]" c' = O ->
  " [" +:+ a +:+ "(" +:+ b +:+ ") #" +:+ c +:+ "]" +:+ r
  = " [" +:+ a' +:+ "(" +:+ b' +:+ ") #" +:+ c' +:+ "]" +:+ r' ->
  a = a' /\ b = b' /\ c = c' /\ r = r'.
Proof.
  intros Ha Ha' Hb Hb' Hc Hc' H.
  expose_literals H. injection H as H.
  cut_field H "("%char E1.
  cut_field H ")"%char E2.
  cut_field H "]"%char E3.
  done.
Qed.

Lemma concat_segments_starts (es : list (Z * Z * Z)) :
  empty_or_starts " "
    (concat_strings ((fun e : Z * Z * Z => segment e.1.1 e.1.2 e.2) <$> es)).
Proof.
  destruct es as [|e es]; [by left|]. right.
  rewrite fmap_cons, concat_strings_cons. unfold segment.
  rewrite !app_assoc_str, !app_cons. eauto.
Qed.

(** The segments determine the entries. *)
Lemma concat_segments_inj (es1 : list (Z * Z * Z)) : forall es2,
  concat_strings ((fun e : Z * Z * Z => segment e.1.1 e.1.2 e.2) <$> es1)
  = concat_strings ((fun e : Z * Z * Z => segment e.1.1 e.1.2 e.2) <$> es2) ->
  es1 = es2.
Proof.
  induction es1 as [|[[i p] c] es1 IH]; intros [|[[i' p'] c'] es2] H.
  - done.
  - exfalso. rewrite fmap_cons, concat_strings_cons in H. unfold segment in H.
    expose_literals H. discriminate H.
  - exfalso. rewrite fmap_cons, concat_strings_cons in H. unfold segment in H.
    expose_literals H. discriminate H.
  - rewrite !fmap_cons, !concat_strings_cons in H. unfold segment in H.
    cbn [fst snd] in H. rewrite !app_assoc_str in H.
    apply segment_line_inj in H as (Hi & Hp & Hc & Hr);
      try (apply count_char_dec; not_a_digit).
    apply dec_inj in Hi, Hp, Hc. subst. f_equal. by apply IH.
Qed.

(** A line laid out as the header of a Contact, followed by text that
    is empty or begins with a space, can be cut back into its parts. *)
Lemma Contact_line_inj (a1 a2 a3 a4 a5 a6 b1 b2 b3 b4 b5 b6 r r' : string) :
  Forall (fun s => count_char " " s = O)
    [a1; a2; a3; a4; a5; a6; b1; b2; b3; b4; b5; b6] ->
  empty_or_starts " " r ->
  empty_or_starts " " r' ->
  "C " +:+ a1 +:+ " 0x" +:+ a2 +:+ " " +:+ a3 +:+ " 0x" +:+ a4 +:+ " 0x"
    +:+ a5 +:+ " " +:+ a6 +:+ r
  = "C " +:+ b1 +:+ " 0x" +:+ b2 +:+ " " +:+ b3 +:+ " 0x" +:+ b4 +:+ " 0x"
    +:+ b5 +:+ " " +:+ b6 +:+ r' ->
  a1 = b1 /\ a2 = b2 /\ a3 = b3 /\ a4 = b4 /\ a5 = b5 /\ a6 = b6 /\ r = r'.
Proof.
  intros Hsp Hr Hr' H.
  repeat match goal with
         | Hf : Forall _ (_ :: _) |- _ => inversion Hf; clear Hf; subst
         end.
  expose_literals H. injection H as H.
  cut_field H " "%char E1.
  cut_field H " "%char E2.
  cut_field H " "%char E3.
  cut_field H " "%char E4.
  cut_field H " "%char E5.
  apply (split_at " "%char) in H as [E6 H]; [|assumption..].
  by repeat split.
Qed.

(** X10. The debug string of a Contact determines the Contact up to
    what [zip] drops: two Contacts with integer fields and the same
    debug string have the same six scalar fields and the same neighbor
    entries, in the same order. *)
Theorem Contact_repr_injective
  (t1 ip1 id1 boot_count1 seq1 flags1 : Z) (ids1 pwrs1 cnts1 : list Z)
  (t2 ip2 id2 boot_count2 seq2 flags2 : Z) (ids2 pwrs2 cnts2 : list Z) :
  res_bind
    (new_Contact (VInt t1) (VInt ip1) (VInt id1) (VInt seq1)
       (Some (VList ids1)) (Some (VList pwrs1)) (Some (VList cnts1))
       (Some (VInt flags1)) (Some (VInt boot_count1)))
    (fun c => result (Contact_repr c))
  = res_bind
      (new_Contact (VInt t2) (VInt ip2) (VInt id2) (VInt seq2)
         (Some (VList ids2)) (Some (VList pwrs2)) (Some (VList cnts2))
         (Some (VInt flags2)) (Some (VInt boot_count2)))
      (fun c => result (Contact_repr c)) ->
  t1 = t2 /\ ip1 = ip2 /\ id1 = id2 /\ boot_count1 = boot_count2
  /\ seq1 = seq2 /\ flags1 = flags2
  /\ neighbors ids1 pwrs1 cnts1 = neighbors ids2 pwrs2 cnts2.
Proof.
  rewrite !Contact_repr_constructed. intros H.
  apply (f_equal (fun r => match r with Ok s => s | Raise _ => EmptyString end)) in H.
  unfold Contact_header, segments in H. rewrite !app_assoc_str in H.
  apply Contact_line_inj in H as (Ht & Hip & Hid & Hbc & Hseq & Hfl & Hsegs).
  - apply dec_inj in Ht, Hid, Hfl. apply hex_inj in Hip, Hbc, Hseq.
    apply concat_segments_inj in Hsegs. by repeat split.
  - repeat constructor; apply count_space_dec || apply count_space_hex.
  - apply concat_segments_starts.
  - apply concat_segments_starts.
Qed.

Lemma Contact_repr_injective_witness :
  res_bind
    (new_Contact (VInt 1700000000) (VInt 0x0afe0001) (VInt 1105) (VInt 77)
       (Some (VList [1200; 1201; 1202])) (Some (VList [0; 2]))
       (Some (VList [3; 1])) (Some (VInt 0)) (Some (VInt 3)))
    (fun c => result (Contact_repr c))
  = res_bind
      (new_Contact (VInt 1700000000) (VInt 0x0afe0001) (VInt 1105) (VInt 77)
         (Some (VList [1200; 1201])) (Some (VList [0; 2; 9]))
         (Some (VList [3; 1])) (Some (VInt 0)) (Some (VInt 3)))
      (fun c => result (Contact_repr c))
  /\ neighbors [1200; 1201; 1202] [0; 2] [3; 1]
     = neighbors [1200; 1201] [0; 2; 9] [3; 1].
Proof.
  split; [vm_compute; reflexivity|].
  apply (Contact_repr_injective 1700000000 0x0afe0001 1105 3 77 0
           [1200; 1201; 1202] [0; 2] [3; 1]
           1700000000 0x0afe0001 1105 3 77 0
           [1200; 1201] [0; 2; 9] [3; 1]).
  vm_compute. reflexivity.
Defined.

(* ===================================================================== *)
(** ** Keyword defaults and declared slots *)
(* ===================================================================== *)

(** X11. The integer keyword parameters default to 0 and print as
    such: a Sighting constructed without [last_seen] and [boot_count]
    ends in " 0 0", and a Contact constructed from its neighbor lists
    without [flags] and [boot_count] shows boot count [0x0000] and
    flags [0] in front of its segments. *)
Theorem default_keywords_repr (t ip id seq strength flags : Z)
  (seen_id seen_pwr seen_cnt : list Z) :
  res_bind
    (new_Sighting (VInt t) (VInt ip) (VInt id) (VInt seq) (VInt strength)
       (VInt flags) None None)
    (fun s => result (Sighting_repr s))
  = Ok ("S " +:+ dec t +:+ " 0x" +:+ format_int 16 true 8 ip +:+ " "
        +:+ dec id +:+ " 0x" +:+ format_int 16 true 8 seq +:+ " "
        +:+ dec strength +:+ " " +:+ dec flags +:+ " 0 0")
  /\ res_bind
       (new_Contact (VInt t) (VInt ip) (VInt id) (VInt seq)
          (Some (VList seen_id)) (Some (VList seen_pwr)) (Some (VList seen_cnt))
          None None)
       (fun c => result (Contact_repr c))
     = Ok ("C " +:+ dec t +:+ " 0x" +:+ format_int 16 true 8 ip +:+ " "
           +:+ dec id +:+ " 0x0000 0x" +:+ format_int 16 true 8 seq +:+ " 0"
           +:+ concat_strings
                 ((fun e : Z * Z * Z =>
                     " [" +:+ dec e.1.1 +:+ "(" +:+ dec e.1.2 +:+ ") #"
                     +:+ dec e.2 +:+ "]")
                  <$> neighbors seen_id seen_pwr seen_cnt)).
Proof.
  split.
  - change (new_Sighting (VInt t) (VInt ip) (VInt id) (VInt seq)
              (VInt strength) (VInt flags) None None)
      with (new_Sighting (VInt t) (VInt ip) (VInt id) (VInt seq)
              (VInt strength) (VInt flags) (Some (VInt 0)) (Some (VInt 0))).
    rewrite Sighting_repr_constructed. reflexivity.
  - change (new_Contact (VInt t) (VInt ip) (VInt id) (VInt seq)
              (Some (VList seen_id)) (Some (VList seen_pwr))
              (Some (VList seen_cnt)) None None)
      with (new_Contact (VInt t) (VInt ip) (VInt id) (VInt seq)
              (Some (VList seen_id)) (Some (VList seen_pwr))
              (Some (VList seen_cnt)) (Some (VInt 0)) (Some (VInt 0))).
    rewrite Contact_repr_constructed. unfold Contact_header.
    rewrite !app_assoc_str. reflexivity.
Qed.

(** X12. The constructors assign every slot of their class: on a
    freshly constructed Sighting each of its eight slots can be read,
    and on a freshly constructed Contact each of its nine; the slots of
    the other class do not exist on it, and reading [seen_id],
    [seen_pwr] or [seen_cnt] on a Sighting, or [strength] or
    [last_seen] on a Contact, raises [AttributeError]. *)
Theorem constructed_slots (t ip id seq : val) :
  (forall (strength flags : val) (last_seen boot_count : option val),
   exists s,
     new_Sighting t ip id seq strength flags last_seen boot_count = Ok s
     /\ Forall (fun name => exists v, result (getattr name s) = Ok v)
          (slots Sighting)
     /\ Forall (fun name => result (getattr name s) = Raise AttributeError)
          ["seen_id"; "seen_pwr"; "seen_cnt"])
  /\ (forall (seen_id seen_pwr seen_cnt : val) (flags boot_count : option val),
      exists c,
        new_Contact t ip id seq (Some seen_id) (Some seen_pwr) (Some seen_cnt)
          flags boot_count
        = Ok c
        /\ Forall (fun name => exists v, result (getattr name c) = Ok v)
             (slots Contact)
        /\ Forall (fun name => result (getattr name c) = Raise AttributeError)
             ["strength"; "last_seen"]).
Proof.
  split; intros.
  - rewrite new_Sighting_ok. eexists. split; [reflexivity|].
    split; repeat constructor; try (eexists; reflexivity).
  - rewrite new_Contact_ok. eexists. split; [reflexivity|].
    split; repeat constructor; try (eexists; reflexivity).
Qed.
